(** * MetaKeep connector (src/connectors/metaKeep.ts): model and properties

    The connector is a closure over two mutable variables ([provider],
    [providerPromise]) and the host framework's [config] (chains, storage,
    emitter).  Every method is an [async] function; it is modelled here as a
    state-passing computation that runs to completion without interleaving,
    and whose outcome is a resolved value, a rejection, or a promise that
    never settles.  [getProvider] is additionally split at its only [await]
    so that overlapping invocations can be scheduled explicitly. *)

From stdpp Require Import gmap strings list fin_maps pretty.

Open Scope string_scope.
Open Scope list_scope.
Open Scope Z_scope.

(** ** Errors *)

(** Error objects that can travel through the connector.  [ProviderError]
    stands for whatever the SDK, the signer, the provider or the storage
    backend rejects with; its [code] property may be missing. *)
Inductive Error : Type :=
| JsError (message : string)              (* new Error(message) *)
| TypeError                               (* member access on undefined *)
| ProviderError (code : option Z)
| InvalidAddressError                     (* viem getAddress *)
| IntegerOutOfRangeError                  (* viem numberToHex *)
| ChainNotConfiguredError
| UserRejectedRequestError (cause : Error)
| ResourceUnavailableRpcError (cause : Error)
| SwitchChainError (cause : Error).

Definition UserRejectedRequestError_code : Z := 4001.
Definition ResourceUnavailableRpcError_code : Z := -32002.
Definition SwitchChainError_code : Z := 4902.

(** [error.code] *)
Definition error_code (e : Error) : option Z :=
  match e with
  | ProviderError c => c
  | UserRejectedRequestError _ => Some UserRejectedRequestError_code
  | ResourceUnavailableRpcError _ => Some ResourceUnavailableRpcError_code
  | SwitchChainError _ => Some SwitchChainError_code
  | _ => None
  end.

(** [error.code === c] *)
Definition has_code (e : Error) (c : Z) : bool :=
  match error_code e with
  | Some c' => c' =? c
  | None => false
  end.

(** ** Outcome of an awaited promise *)

Inductive Outcome (A : Type) : Type :=
| Resolved (a : A)
| Rejected (e : Error)
| Pending.                                (* never settles *)

Arguments Resolved {A} a.
Arguments Rejected {A} e.
Arguments Pending {A}.

(** ** The provider object and its listener registry *)

(** The four event names the connector passes to [provider.on] and
    [provider.removeListener]. *)
Inductive EventName : Type :=
| EvConnect                               (* 'connect' *)
| EvAccountsChanged                       (* 'accountsChanged' *)
| EvChainChanged                          (* 'chainChanged' *)
| EvDisconnect.                           (* 'disconnect' *)

(** Function objects handed to the provider.  [this.onChainChanged] is the
    one function stored in the connector object.  Every evaluation of
    [this.f.bind(this)] allocates a new function object; the number is its
    allocation index. *)
Inductive Listener : Type :=
| OnChainChanged
| BoundOnConnect (n : nat)
| BoundOnAccountsChanged (n : nat)
| BoundOnDisconnect (n : nat).

#[global] Instance EventName_eq_dec : EqDecision EventName.
Proof. solve_decision. Defined.

#[global] Instance Listener_eq_dec : EqDecision Listener.
Proof. solve_decision. Defined.

(** The part of an ethers (v5) [Web3Provider] the connector mutates: the
    registry [_events] of its base provider, in registration order.  Each
    entry pairs an event name with the function object registered for it. *)
Record Provider : Type := mkProvider {
  events : list (EventName * Listener)
}.

(** [new ethers.providers.Web3Provider(web3Provider)] *)
Definition new_Web3Provider : Provider := mkProvider [].

(** [provider.on(eventName, listener)]: appends an entry. *)
Definition provider_on (ev : EventName) (l : Listener) (p : Provider) : Provider :=
  mkProvider (events p ++ [(ev, l)]).

(** What [off] does to the registry: it drops the first entry registered
    under [ev] whose listener is the function object [l] itself (listeners
    are compared by identity); entries holding another function object are
    kept, also when that function was made from the same method. *)
Fixpoint remove_first (ev : EventName) (l : Listener)
    (es : list (EventName * Listener)) : list (EventName * Listener) :=
  match es with
  | [] => []
  | (ev', l') :: rest =>
      if bool_decide (ev' = ev ∧ l' = l) then rest
      else (ev', l') :: remove_first ev l rest
  end.

(** [provider.removeListener(eventName, listener)] *)
Definition provider_removeListener (ev : EventName) (l : Listener)
    (p : Provider) : Provider :=
  mkProvider (remove_first ev l (events p)).

(** Whether some listener is attached for [ev]. *)
Definition listening (p : Provider) (ev : EventName) : bool :=
  existsb (fun e => bool_decide (e.1 = ev)) (events p).

(** The two listener sets of the specification, as characteristic
    functions over event names. *)
Definition pre_connect_set (ev : EventName) : bool :=
  match ev with EvConnect => true | _ => false end.

Definition post_connect_set (ev : EventName) : bool :=
  match ev with EvConnect => false | _ => true end.

(** The pre-connect set is attached when [connect] has a listener. *)
Definition pre_attached (p : Provider) : bool := listening p EvConnect.

(** Some event of the post-connect set has a listener. *)
Definition post_attached (p : Provider) : bool :=
  listening p EvAccountsChanged || listening p EvChainChanged
  || listening p EvDisconnect.

(** ** Host framework and external calls *)

Record Chain : Type := mkChain { chain_id : Z }.

(** [Number(s)] for a string [s], kept symbolic. *)
Inductive JsNumber : Type := NumberOf (s : string).

(** Calls of [config.emitter.emit]. *)
Inductive Emitted : Type :=
| EmitConnect (accounts : list string) (chainId : JsNumber)
| EmitChangeAccounts (accounts : list string)
| EmitChangeChainId (chainId : JsNumber)
| EmitDisconnect.

(** Calls that leave the connector, in the order they are made. *)
Inductive Call : Type :=
| CallImportSdk                           (* import('metakeep') *)
| CallNewSdk (appId : string) (user : option string) (* new MetaKeep({...}) *)
| CallSdkEthereum                         (* sdk.ethereum *)
| CallInitProvider                        (* initProvider() *)
| CallSignerGetAddress                    (* signer.getAddress() *)
| CallSignerGetChainId                    (* signer.getChainId() *)
| CallProviderSend (method : string) (chainId : Z) (* provider.send(...) *)
| CallStorageGet (key : string)
| CallStorageSet (key : string) (value : bool)
| CallStorageRemove (key : string).

#[global] Instance Call_eq_dec : EqDecision Call.
Proof. solve_decision. Defined.

(** The value [providerPromise] can hold: the promise returned by
    [initProvider()], whose body is empty, so it resolves to [undefined]. *)
Inductive InitPromise : Type := PromiseOfUndefined.

(** Construction parameters, host configuration, and the behaviour of the
    outside world.  An external call made when [n] calls are already in the
    trace gets the answer the corresponding oracle gives at [n]. *)
Record Env : Type := mkEnv {
  appId : option string;                  (* parameters.appId *)
  user : option string;                   (* parameters.user *)
  chains : list Chain;                    (* config.chains *)
  sdk_ethereum : nat → Outcome unit;
  signer_getAddress : nat → Outcome string;
  signer_getChainId : nat → Outcome Z;
  provider_send : nat → Outcome unit;
  (* does the next 'change' event carry the requested chain id? *)
  change_confirms : nat → bool;
  storage_backend : nat → Outcome unit;
  (* viem getAddress: the checksummed address, or None when it throws *)
  viem_getAddress : string → option string
}.

(** ** Connector state *)

Record State : Type := mkState {
  provider : option Provider;             (* let provider *)
  providerPromise : option InitPromise;   (* let providerPromise *)
  nextBound : nat;                        (* function objects made by bind *)
  storage : option (gmap string bool);    (* config.storage, may be absent *)
  localStorage : option (gmap string string); (* global, may be undefined *)
  connectSubscribers : nat;               (* emitter.listenerCount('connect') *)
  emitted : list Emitted;                 (* oldest first *)
  trace : list Call                       (* oldest first *)
}.

Definition set_provider (v : option Provider) (st : State) : State :=
  mkState v (providerPromise st) (nextBound st) (storage st)
          (localStorage st) (connectSubscribers st) (emitted st) (trace st).

Definition set_providerPromise (v : option InitPromise) (st : State) : State :=
  mkState (provider st) v (nextBound st) (storage st)
          (localStorage st) (connectSubscribers st) (emitted st) (trace st).

Definition set_nextBound (v : nat) (st : State) : State :=
  mkState (provider st) (providerPromise st) v (storage st)
          (localStorage st) (connectSubscribers st) (emitted st) (trace st).

Definition set_storage (v : option (gmap string bool)) (st : State) : State :=
  mkState (provider st) (providerPromise st) (nextBound st) v
          (localStorage st) (connectSubscribers st) (emitted st) (trace st).

Definition set_localStorage (v : option (gmap string string)) (st : State) : State :=
  mkState (provider st) (providerPromise st) (nextBound st) (storage st)
          v (connectSubscribers st) (emitted st) (trace st).

Definition emit (e : Emitted) (st : State) : State :=
  mkState (provider st) (providerPromise st) (nextBound st) (storage st)
          (localStorage st) (connectSubscribers st) (emitted st ++ [e]) (trace st).

Definition log (c : Call) (st : State) : State :=
  mkState (provider st) (providerPromise st) (nextBound st) (storage st)
          (localStorage st) (connectSubscribers st) (emitted st) (trace st ++ [c]).

(** A connector right after [metaKeep(parameters)] and [createConnector]. *)
Definition init (sto : option (gmap string bool))
    (ls : option (gmap string string)) (subs : nat) : State :=
  mkState None None 0 sto ls subs [] [].

(** ** Asynchronous computations *)

Definition Async (A : Type) : Type := State → State * Outcome A.

Definition ret {A} (a : A) : Async A := fun st => (st, Resolved a).

Definition throw {A} (e : Error) : Async A := fun st => (st, Rejected e).

Definition bind {A B} (m : Async A) (k : A → Async B) : Async B :=
  fun st =>
    match m st with
    | (st', Resolved a) => k a st'
    | (st', Rejected e) => (st', Rejected e)
    | (st', Pending) => (st', Pending)
    end.

(** [try { m } catch (e) { h e }], and [m.catch(h)]. *)
Definition try_catch {A} (m : Async A) (h : Error → Async A) : Async A :=
  fun st =>
    match m st with
    | (st', Rejected e) => h e st'
    | r => r
    end.

(** A call whose promise is dropped ([this.onDisconnect()] without
    [await]): its effects happen, its outcome is not observed. *)
Definition floating {A} (m : Async A) : Async unit :=
  fun st => ((m st).1, Resolved tt).

Definition modify (f : State → State) : Async unit :=
  fun st => (f st, Resolved tt).

Notation "'let*' x ':=' m 'in' k" := (bind m (fun x => k))
  (at level 10, x pattern, m at level 100, k at level 200, only parsing).
Notation "m ';;' k" := (bind m (fun _ => k))
  (at level 100, k at level 200, right associativity, only parsing).

(** ** The connector's methods *)

Section Connector.

Variable env : Env.

(** An awaited call into the SDK, the signer or the provider. *)
Definition external {A} (c : Call) (oracle : nat → Outcome A) : Async A :=
  fun st => (log c st, oracle (length (trace st))).

(** [this.f.bind(this)]: a function object nobody else holds. *)
Definition bind_this (f : nat → Listener) : Async Listener :=
  fun st => (set_nextBound (S (nextBound st)) st, Resolved (f (nextBound st))).

(** [provider.on(ev, <listener expression>)].  The member access on
    [provider] comes first and throws when it is undefined; only then is
    the listener expression evaluated. *)
Definition on (ev : EventName) (listener : Async Listener) : Async unit :=
  fun st =>
    match provider st with
    | None => (st, Rejected TypeError)
    | Some _ =>
        (let* l := listener in
         modify (fun s => set_provider (provider_on ev l <$> provider s) s)) st
    end.

(** [provider.removeListener(ev, <listener expression>)] *)
Definition removeListener (ev : EventName) (listener : Async Listener) : Async unit :=
  fun st =>
    match provider st with
    | None => (st, Rejected TypeError)
    | Some _ =>
        (let* l := listener in
         modify (fun s => set_provider (provider_removeListener ev l <$> provider s) s)) st
    end.

(** *** getProvider *)

(** What a [getProvider] invocation holds while suspended: the provider it
    found cached, or the promise it awaits. *)
Inductive ProviderWait : Type :=
| Ready (p : Provider)
| Awaiting (pr : InitPromise).

(** [initProvider()]: the body is empty. *)
Definition initProvider : State → State * InitPromise :=
  fun st => (log CallInitProvider st, PromiseOfUndefined).

(** [getProvider] up to its [await]. *)
Definition getProvider_start (st : State) : State * ProviderWait :=
  match provider st with
  | Some p => (st, Ready p)
  | None =>
      match providerPromise st with
      | Some pr => (st, Awaiting pr)
      | None =>
          let '(st1, pr) := initProvider st in
          (set_providerPromise (Some pr) st1, Awaiting pr)
      end
  end.

(** [getProvider] from its [await] on: [provider = <awaited value>;
    return provider]. *)
Definition getProvider_resume (w : ProviderWait) : Async (option Provider) :=
  match w with
  | Ready p => ret (Some p)
  | Awaiting PromiseOfUndefined =>
      fun st => (set_provider None st, Resolved None)
  end.

Definition getProvider : Async (option Provider) :=
  fun st => let '(st1, w) := getProvider_start st in getProvider_resume w st1.

(** [provider.getSigner()] on the value [getProvider] returned. *)
Definition getSigner (p : option Provider) : Async unit :=
  match p with
  | None => throw TypeError
  | Some _ => ret tt
  end.

(** *** getAccounts, getChainId *)

(** [accounts.map((x) => getAddress(x))] *)
Fixpoint map_getAddress (xs : list string) : Async (list string) :=
  match xs with
  | [] => ret []
  | x :: rest =>
      match viem_getAddress env x with
      | None => throw InvalidAddressError
      | Some a => let* r := map_getAddress rest in ret (a :: r)
      end
  end.

Definition getAccounts : Async (list string) :=
  let* p := getProvider in
  getSigner p ;;
  let* a := external CallSignerGetAddress (signer_getAddress env) in
  map_getAddress [a].

Definition getChainId : Async Z :=
  let* p := getProvider in
  getSigner p ;;
  let* chainId := external CallSignerGetChainId (signer_getChainId env) in
  ret chainId.

(** *** Storage *)

Definition disconnected_key : string := "metaKeep.disconnected".

(** [config.storage?.getItem(key)].  With no storage the optional chain
    yields undefined and nothing is called. *)
Definition storage_getItem (key : string) : Async (option bool) :=
  fun st =>
    match storage st with
    | None => (st, Resolved None)
    | Some m =>
        (external (CallStorageGet key) (storage_backend env) ;; ret (m !! key)) st
    end.

(** [config.storage?.setItem(key, true)] *)
Definition storage_setItem (key : string) (v : bool) : Async unit :=
  fun st =>
    match storage st with
    | None => (st, Resolved tt)
    | Some m =>
        (external (CallStorageSet key v) (storage_backend env) ;;
         modify (set_storage (Some (<[key := v]> m)))) st
    end.

(** [config.storage?.removeItem(key)] *)
Definition storage_removeItem (key : string) : Async unit :=
  fun st =>
    match storage st with
    | None => (st, Resolved tt)
    | Some m =>
        (external (CallStorageRemove key) (storage_backend env) ;;
         modify (set_storage (Some (delete key m)))) st
    end.

(** Truthiness of a stored flag. *)
Definition truthy (v : option bool) : bool :=
  match v with Some true => true | _ => false end.

(** *** switchChain *)

(** [config.chains.find((x) => x.id === chainId)] *)
Definition find_chain (chainId : Z) : option Chain :=
  List.find (fun x => chain_id x =? chainId) (chains env).

Definition MAX_SAFE_INTEGER : Z := 2 ^ 53 - 1.

(** [Promise.all([provider.send(...), new Promise(... once('change') ...)])].
    A rejected request rejects the whole; otherwise it settles only when
    the request resolves and the awaited 'change' event carries the
    requested chain id. *)
Definition send_and_await_change (chainId : Z) : Async unit :=
  fun st =>
    let n := length (trace st) in
    let st1 := log (CallProviderSend "wallet_switchEthereumChain" chainId) st in
    match provider_send env n with
    | Rejected e => (st1, Rejected e)
    | Pending => (st1, Pending)
    | Resolved _ => (st1, if change_confirms env n then Resolved tt else Pending)
    end.

Definition switchChain (chainId : Z) : Async Chain :=
  let* p := getProvider in
  match find_chain chainId with
  | None => throw (SwitchChainError ChainNotConfiguredError)
  | Some chain =>
      try_catch
        (match p with
         | None => throw TypeError                (* provider.send *)
         | Some _ =>
             (* numberToHex(chainId) *)
             if (chainId <? 0) || (MAX_SAFE_INTEGER <? chainId)
             then throw IntegerOutOfRangeError
             else (send_and_await_change chainId ;; ret chain)
         end)
        (fun error =>
           if has_code error UserRejectedRequestError_code
           then throw (UserRejectedRequestError error)
           else throw (SwitchChainError error))
  end.

(** *** Provider event handlers *)

(** The swap to the post-connect listeners, as written in [connect] and in
    [onConnect]. *)
Definition attach_post_connect : Async unit :=
  removeListener EvConnect (bind_this BoundOnConnect) ;;
  on EvAccountsChanged (bind_this BoundOnAccountsChanged) ;;
  on EvChainChanged (ret OnChainChanged) ;;
  on EvDisconnect (bind_this BoundOnDisconnect).

(** The swap back, as written in [disconnect] and in [onDisconnect]. *)
Definition attach_pre_connect : Async unit :=
  removeListener EvAccountsChanged (bind_this BoundOnAccountsChanged) ;;
  removeListener EvChainChanged (ret OnChainChanged) ;;
  removeListener EvDisconnect (bind_this BoundOnDisconnect) ;;
  on EvConnect (bind_this BoundOnConnect).

(** [connectInfo] is represented by its [chainId] string. *)
Definition onConnect (connectInfo_chainId : string) : Async unit :=
  let* accounts := getAccounts in
  if (length accounts =? 0)%nat then ret tt
  else
    modify (emit (EmitConnect accounts (NumberOf connectInfo_chainId))) ;;
    let* p := getProvider in
    match p with
    | None => ret tt
    | Some _ => attach_post_connect
    end.

(** [localStorage.removeItem] of the two cached keys, when the global
    exists. *)
Definition clear_cached (st : State) : State :=
  set_localStorage
    (delete "MetaKeep_cached_chainId" <$>
       (delete "MetaKeep_cached_address" <$> localStorage st)) st.

Definition onDisconnect (error : option Error) : Async unit :=
  let* p := getProvider in
  let* spurious :=
    match error with
    | Some e =>
        if has_code e 1013 then
          match p with
          | None => ret false
          | Some _ =>
              let* accounts := getAccounts in
              ret (negb (length accounts =? 0)%nat)
          end
        else ret false
    | None => ret false
    end in
  if spurious : bool then ret tt
  else
    modify clear_cached ;;
    modify (emit EmitDisconnect) ;;
    attach_pre_connect.

Definition onAccountsChanged (accounts : list string) : Async unit :=
  fun st =>
    if (length accounts =? 0)%nat then floating (onDisconnect None) st
    else if (0 <? connectSubscribers st)%nat then
      (let* chainId := getChainId in
       floating (onConnect (pretty chainId)) ;;
       storage_removeItem disconnected_key) st
    else
      (let* checksummed := map_getAddress accounts in
       modify (emit (EmitChangeAccounts checksummed))) st.

Definition onChainChanged (chain : string) : Async unit :=
  modify (emit (EmitChangeChainId (NumberOf chain))).

(** *** Lifecycle methods *)

Definition setup : Async unit :=
  let* p := getProvider in
  match p with
  | None => ret tt
  | Some _ => on EvConnect (bind_this BoundOnConnect)
  end.

Record ConnectResult : Type := mkConnectResult {
  result_accounts : list string;
  result_chainId : Z
}.

(** [!parameters.appId] is false only for a non-empty string. *)
Definition configured_appId : option string :=
  match appId env with
  | Some "" => None
  | other => other
  end.

(** The body of [if (!provider) { ... }] in [connect].  Loading the SDK
    module is recorded in the trace and taken to succeed. *)
Definition construct_provider : Async unit :=
  external CallImportSdk (fun _ => Resolved tt) ;;
  match configured_appId with
  | None => throw (JsError "appId not found")
  | Some a =>
      modify (log (CallNewSdk a (user env))) ;;
      external CallSdkEthereum (sdk_ethereum env) ;;
      modify (set_provider (Some new_Web3Provider))
  end.

Definition connect (chainId : option Z) (isReconnecting : bool)
    : Async ConnectResult :=
  (fun st =>
     match provider st with
     | Some _ => ret tt st
     | None => construct_provider st
     end) ;;
  let* accounts :=
    (if isReconnecting then try_catch getAccounts (fun _ => ret [])
     else ret []) in
  try_catch
    (let* accounts :=
       (if (length accounts =? 0)%nat then
          let* a := external CallSignerGetAddress (signer_getAddress env) in
          ret [a]
        else ret accounts) in
     attach_post_connect ;;
     let* currentChainId := getChainId in
     let* currentChainId :=
       match chainId with
       | Some requested =>
           if negb (requested =? 0) && negb (currentChainId =? requested) then
             let* chain :=
               try_catch (switchChain requested)
                 (fun error =>
                    if has_code error UserRejectedRequestError_code
                    then throw error
                    else ret (mkChain currentChainId)) in
             ret (chain_id chain)
           else ret currentChainId
       | None => ret currentChainId
       end in
     storage_removeItem disconnected_key ;;
     ret (mkConnectResult accounts currentChainId))
    (fun error =>
       if has_code error UserRejectedRequestError_code
       then throw (UserRejectedRequestError error)
       else if has_code error ResourceUnavailableRpcError_code
       then throw (ResourceUnavailableRpcError error)
       else throw error).

Definition disconnect : Async unit :=
  let* _ := getProvider in
  attach_pre_connect ;;
  storage_setItem disconnected_key true.

Definition isAuthorized : Async bool :=
  try_catch
    (let* isDisconnected := storage_getItem disconnected_key in
     if truthy isDisconnected then ret false
     else
       let* accounts := getAccounts in
       ret (negb (length accounts =? 0)%nat))
    (fun _ => ret false).

End Connector.

(** ** Overlapping [getProvider] invocations *)

(** [n] invocations enter [getProvider] one after the other; each runs up
    to its [await]. *)
Fixpoint start_all (n : nat) (st : State) : State * list ProviderWait :=
  match n with
  | O => (st, [])
  | S k =>
      let '(st1, w) := getProvider_start st in
      let '(st2, ws) := start_all k st1 in
      (st2, w :: ws)
  end.

(** The suspended invocations continue in the order they suspended. *)
Fixpoint resume_all (ws : list ProviderWait) (st : State)
    : State * list (Outcome (option Provider)) :=
  match ws with
  | [] => (st, [])
  | w :: rest =>
      let '(st1, r) := getProvider_resume w st in
      let '(st2, rs) := resume_all rest st1 in
      (st2, r :: rs)
  end.

Definition concurrent_getProvider (n : nat) (st : State)
    : State * list (Outcome (option Provider)) :=
  let '(st1, ws) := start_all n st in resume_all ws st1.

(** Number of [initProvider()] calls in a trace. *)
Definition creation_attempts (t : list Call) : nat :=
  length (filter (λ c, c = CallInitProvider) t).

(** The [provider.send] requests in a trace. *)
Definition is_send (c : Call) : bool :=
  match c with CallProviderSend _ _ => true | _ => false end.

Definition rpc_requests (t : list Call) : list Call := filter is_send t.

(** Calls on the SDK client, the signer or the provider. *)
Definition is_sdk_call (c : Call) : bool :=
  match c with
  | CallNewSdk _ _ | CallSdkEthereum | CallSignerGetAddress
  | CallSignerGetChainId | CallProviderSend _ _ => true
  | _ => false
  end.

(** ** Methods as data *)

Inductive Method : Type :=
| MSetup
| MConnect (chainId : option Z) (isReconnecting : bool)
| MDisconnect
| MGetAccounts
| MGetChainId
| MGetProvider
| MIsAuthorized
| MSwitchChain (chainId : Z)
| MOnAccountsChanged (accounts : list string)
| MOnChainChanged (chain : string)
| MOnConnect (connectInfo_chainId : string)
| MOnDisconnect (error : option Error).

Definition is_connect (m : Method) : bool :=
  match m with MConnect _ _ => true | _ => false end.

(** The state a method call leaves behind, whatever its outcome. *)
Definition run (env : Env) (m : Method) (st : State) : State :=
  match m with
  | MSetup => (setup st).1
  | MConnect c r => (connect env c r st).1
  | MDisconnect => (disconnect env st).1
  | MGetAccounts => (getAccounts env st).1
  | MGetChainId => (getChainId env st).1
  | MGetProvider => (getProvider st).1
  | MIsAuthorized => (isAuthorized env st).1
  | MSwitchChain c => (switchChain env c st).1
  | MOnAccountsChanged a => (onAccountsChanged env a st).1
  | MOnChainChanged c => (onChainChanged c st).1
  | MOnConnect c => (onConnect env c st).1
  | MOnDisconnect e => (onDisconnect env e st).1
  end.

(** ** State invariants *)

(** [m] preserves the state invariant [I], whatever its outcome. *)
Definition preserves {A} (I : State → Prop) (m : Async A) : Prop :=
  ∀ st, I st → I (m st).1.

(** Invariants that do not look at the trace or at [providerPromise]. *)
Definition plumbing_free (I : State → Prop) : Prop :=
  (∀ c st, I st → I (log c st))
  ∧ (∀ v st, I st → I (set_providerPromise v st)).

(** Invariants that moreover do not look at the host storage. *)
Definition storage_free (I : State → Prop) : Prop :=
  ∀ v st, I st → I (set_storage v st).

(** The provider slot is empty. *)
Definition absent (st : State) : Prop := provider st = None.

(** The provider slot holds exactly [v]. *)
Definition holds (v : option Provider) (st : State) : Prop := provider st = v.

(** What the connector owns and what it has shown to the host. *)
Definition effects (st : State)
    : option Provider * list Emitted * option (gmap string bool)
      * option (gmap string string) :=
  (provider st, emitted st, storage st, localStorage st).

(** Function objects made by [bind] so far all have an index below
    [nextBound]. *)
Definition allocated (st : State) (l : Listener) : Prop :=
  match l with
  | OnChainChanged => True
  | BoundOnConnect n | BoundOnAccountsChanged n | BoundOnDisconnect n =>
      (n < nextBound st)%nat
  end.

(** ** Sample configurations *)

(** Polygon Amoy, the one chain of the demo application (src/App.tsx). *)
Definition amoy : Z := 80002.

(** The demo application's configuration, with a wallet that answers every
    request. *)
Definition demo_env : Env :=
  mkEnv (Some "app-id") None [mkChain amoy]
        (λ _, Resolved tt) (λ _, Resolved "0xa11ce") (λ _, Resolved amoy)
        (λ _, Resolved tt) (λ _, true) (λ _, Resolved tt) (λ a, Some a).

(** The same application with [parameters.appId] left out. *)
Definition unconfigured_env : Env :=
  mkEnv None None [mkChain amoy]
        (λ _, Resolved tt) (λ _, Resolved "0xa11ce") (λ _, Resolved amoy)
        (λ _, Resolved tt) (λ _, true) (λ _, Resolved tt) (λ a, Some a).

(** A wallet whose user declines the address request. *)
Definition declining_env : Env :=
  mkEnv (Some "app-id") None [mkChain amoy]
        (λ _, Resolved tt)
        (λ _, Rejected (ProviderError (Some UserRejectedRequestError_code)))
        (λ _, Resolved amoy)
        (λ _, Resolved tt) (λ _, true) (λ _, Resolved tt) (λ a, Some a).

(** A host storage whose backend rejects every access. *)
Definition storage_down_env : Env :=
  mkEnv (Some "app-id") None [mkChain amoy]
        (λ _, Resolved tt) (λ _, Resolved "0xa11ce") (λ _, Resolved amoy)
        (λ _, Resolved tt) (λ _, true) (λ _, Rejected (ProviderError None))
        (λ a, Some a).

(** A connector that has just been created, with an empty host storage. *)
Definition fresh : State := init (Some ∅) None 0.

(** A connector after one successful [connect]. *)
Definition connected : State := run demo_env (MConnect None false) fresh.

(** ... and after a [disconnect] that follows it. *)
Definition disconnected : State := run demo_env MDisconnect connected.

(** A connector created in a session whose storage still holds the flag. *)
Definition flagged : State := init (Some {[disconnected_key := true]}) None 0.

(** ** Sequences of calls and call footprints *)

(** The state after the host has called the methods [ms] one after the
    other, each running to completion. *)
Definition runs (env : Env) (ms : list Method) (st : State) : State :=
  foldl (λ s m, run env m s) st ms.

(** Calls that load or construct the SDK client. *)
Definition is_sdk_construction (c : Call) : bool :=
  match c with
  | CallImportSdk | CallNewSdk _ _ | CallSdkEthereum => true
  | _ => false
  end.

(** Calls of [config.storage.setItem]. *)
Definition is_storage_write (c : Call) : bool :=
  match c with CallStorageSet _ _ => true | _ => false end.


Definition is_disconnect (m : Method) : bool :=
  match m with MDisconnect => true | _ => false end.

(** What a state invariant has to tolerate for the methods to preserve it:
    the steps out of which every method is composed.  External calls are
    tolerated as far as they are [allowed]. *)
Record respected (allowed : Call → bool) (I : State → Prop) : Prop := mkRespected {
  by_getProvider : preserves I getProvider;
  by_post_connect : preserves I attach_post_connect;
  by_pre_connect : preserves I attach_pre_connect;
  by_on_connect : preserves I (on EvConnect (bind_this BoundOnConnect));
  by_log : ∀ c st, allowed c = true → I st → I (log c st);
  by_emit : ∀ e st, I st → I (emit e st);
  by_storage : ∀ v st, I st → I (set_storage v st);
  by_clear_cached : ∀ st, I st → I (clear_cached st)
}.

(** The external calls a method can make, [initProvider] aside. *)
Definition footprint (m : Method) (c : Call) : bool :=
  match m, c with
  | MConnect _ _, (CallImportSdk | CallNewSdk _ _ | CallSdkEthereum
                   | CallSignerGetAddress | CallSignerGetChainId
                   | CallProviderSend _ _ | CallStorageRemove _) => true
  | MDisconnect, CallStorageSet _ _ => true
  | MGetAccounts, CallSignerGetAddress => true
  | MGetChainId, CallSignerGetChainId => true
  | MIsAuthorized, (CallStorageGet _ | CallSignerGetAddress) => true
  | MSwitchChain _, CallProviderSend _ _ => true
  | MOnAccountsChanged _, (CallSignerGetAddress | CallSignerGetChainId
                           | CallStorageRemove _) => true
  | MOnConnect _, CallSignerGetAddress => true
  | MOnDisconnect _, CallSignerGetAddress => true
  | _, _ => false
  end.

(** Every function object in the provider's registry has been allocated:
    its index is below [nextBound]. *)
Definition registry_allocated (st : State) : Prop :=
  ∀ p ev l, provider st = Some p → (ev, l) ∈ events p → allocated st l.

(** The registry is allocated and still holds the entries [E]. *)
Definition tracked (E : list (EventName * Listener)) (st : State) : Prop :=
  registry_allocated st
  ∧ ∀ x, x ∈ E → ∃ p, provider st = Some p ∧ x ∈ events p.

(** [initProvider] has run at most once, and not at all while
    [providerPromise] is unset. *)
Definition created_once (st : State) : Prop :=
  (providerPromise st = None → creation_attempts (trace st) = 0%nat)
  ∧ (creation_attempts (trace st) ≤ 1)%nat.

(** ** Further sample configurations *)

(** A wallet whose user declines every chain switch. *)
Definition switch_declining_env : Env :=
  mkEnv (Some "app-id") None [mkChain amoy; mkChain 137]
        (λ _, Resolved tt) (λ _, Resolved "0xa11ce") (λ _, Resolved amoy)
        (λ _, Rejected (ProviderError (Some UserRejectedRequestError_code)))
        (λ _, true) (λ _, Resolved tt) (λ a, Some a).

(** Two configured chains and a wallet that switches when asked. *)
Definition two_chain_env : Env :=
  mkEnv (Some "app-id") None [mkChain amoy; mkChain 137]
        (λ _, Resolved tt) (λ _, Resolved "0xa11ce") (λ _, Resolved amoy)
        (λ _, Resolved tt) (λ _, true) (λ _, Resolved tt) (λ a, Some a).

(** A signer that rejects every request. *)
Definition signer_down_env : Env :=
  mkEnv (Some "app-id") None [mkChain amoy]
        (λ _, Resolved tt) (λ _, Rejected (ProviderError None))
        (λ _, Rejected (ProviderError None))
        (λ _, Resolved tt) (λ _, true) (λ _, Resolved tt) (λ a, Some a).

(** Connectors of these configurations after one successful [connect]. *)
Definition connected_two : State := run two_chain_env (MConnect None false) fresh.

Definition connected_declining : State :=
  run switch_declining_env (MConnect None false) fresh.

(** An SDK that fails to hand out its provider, with a user-rejection
    code. *)
Definition sdk_down_env : Env :=
  mkEnv (Some "app-id") None [mkChain amoy]
        (λ _, Rejected (ProviderError (Some UserRejectedRequestError_code)))
        (λ _, Resolved "0xa11ce") (λ _, Resolved amoy)
        (λ _, Resolved tt) (λ _, true) (λ _, Resolved tt) (λ a, Some a).

(** ** The demo application (src/App.tsx) *)

(** [!s] for a value that is a string or undefined. *)
Definition falsy (s : option string) : bool :=
  match s with
  | None | Some "" => true
  | Some _ => false
  end.

(** The module body of App.tsx up to [metaKeep({ appId })]: the two
    environment values are checked, and the application id is what the
    connector is created with. *)
Definition App_parameters (VITE_PROJECT_ID VITE_METAKEEP_APP_ID : option string)
    : Outcome (option string) :=
  if falsy VITE_PROJECT_ID || falsy VITE_METAKEEP_APP_ID
  then Rejected (JsError "VITE_PROJECT_ID is not set")
  else Resolved VITE_METAKEEP_APP_ID.


(** * Properties *)

(** ** Reasoning about [Async] computations *)

Lemma state_eta st :
  mkState (provider st) (providerPromise st) (nextBound st) (storage st)
          (localStorage st) (connectSubscribers st) (emitted st) (trace st) = st.
Proof. by destruct st. Qed.

Lemma bind_resolved {A B} (m : Async A) (k : A → Async B) st st' b :
  bind m k st = (st', Resolved b) →
  ∃ st1 a, m st = (st1, Resolved a) ∧ k a st1 = (st', Resolved b).
Proof.
  unfold bind. destruct (m st) as [st1 [a|e|]] eqn:Hm; intros H; simplify_eq.
  eauto.
Qed.

Lemma try_catch_resolved {A} (m : Async A) (h : Error → Async A) st st' b :
  try_catch m h st = (st', Resolved b) →
  m st = (st', Resolved b)
  ∨ ∃ st1 e, m st = (st1, Rejected e) ∧ h e st1 = (st', Resolved b).
Proof.
  unfold try_catch. destruct (m st) as [st1 [a|e|]] eqn:Hm; intros H; simplify_eq; eauto.
Qed.

Section Preserves.
Context (I : State → Prop).

Lemma preserves_ret {A} (a : A) : preserves I (ret a).
Proof. by intros st. Qed.

Lemma preserves_throw {A} e : preserves I (@throw A e).
Proof. by intros st. Qed.

Lemma preserves_bind {A B} (m : Async A) (k : A → Async B) :
  preserves I m → (∀ a, preserves I (k a)) → preserves I (bind m k).
Proof.
  intros Hm Hk st HI. unfold bind. specialize (Hm st HI).
  destruct (m st) as [st1 [a|e|]]; simpl in *; auto. by apply Hk.
Qed.

Lemma preserves_try_catch {A} (m : Async A) h :
  preserves I m → (∀ e, preserves I (h e)) → preserves I (try_catch m h).
Proof.
  intros Hm Hh st HI. unfold try_catch. specialize (Hm st HI).
  destruct (m st) as [st1 [a|e|]]; simpl in *; auto. by apply Hh.
Qed.

Lemma preserves_floating {A} (m : Async A) :
  preserves I m → preserves I (floating m).
Proof. intros Hm st HI. by apply Hm. Qed.

Lemma preserves_modify f :
  (∀ st, I st → I (f st)) → preserves I (modify f).
Proof. intros Hf st HI. by apply Hf. Qed.

Lemma preserves_external {A} c (o : nat → Outcome A) :
  (∀ st, I st → I (log c st)) → preserves I (external c o).
Proof. intros Hf st HI. by apply Hf. Qed.

End Preserves.

Lemma getProvider_cached st p :
  provider st = Some p → getProvider st = (st, Resolved (Some p)).
Proof. intros Hp. unfold getProvider, getProvider_start. by rewrite Hp. Qed.

Lemma getProvider_absent st :
  provider st = None →
  getProvider st =
    (match providerPromise st with
     | Some _ => st
     | None => set_providerPromise (Some PromiseOfUndefined) (log CallInitProvider st)
     end, Resolved None).
Proof.
  intros Hp. unfold getProvider, getProvider_start. rewrite Hp.
  destruct (providerPromise st) as [[]|] eqn:Hq; simpl.
  - unfold set_provider. rewrite <- Hp at 1. by rewrite state_eta.
  - unfold set_provider, set_providerPromise, log; simpl. by rewrite Hp.
Qed.

Lemma preserves_getProvider I : plumbing_free I → preserves I getProvider.
Proof.
  intros [Hlog Hpr] st HI. destruct (provider st) as [p|] eqn:Hp.
  - by rewrite (getProvider_cached st p).
  - rewrite getProvider_absent by done. simpl.
    destruct (providerPromise st); auto.
Qed.

Lemma preserves_getSigner I p : preserves I (getSigner p).
Proof. destruct p; [apply preserves_ret | apply preserves_throw]. Qed.

Lemma preserves_map_getAddress I env xs : preserves I (map_getAddress env xs).
Proof.
  induction xs as [|x xs IH]; simpl; [apply preserves_ret|].
  destruct (viem_getAddress env x); [|apply preserves_throw].
  apply preserves_bind; [done|]. intros; apply preserves_ret.
Qed.

Lemma preserves_getAccounts I env : plumbing_free I → preserves I (getAccounts env).
Proof.
  intros HI. unfold getAccounts.
  apply preserves_bind; [by apply preserves_getProvider|intros p].
  apply preserves_bind; [apply preserves_getSigner|intros _].
  apply preserves_bind; [apply preserves_external, HI|intros a].
  apply preserves_map_getAddress.
Qed.

Lemma preserves_getChainId I env : plumbing_free I → preserves I (getChainId env).
Proof.
  intros HI. unfold getChainId.
  apply preserves_bind; [by apply preserves_getProvider|intros p].
  apply preserves_bind; [apply preserves_getSigner|intros _].
  apply preserves_bind; [apply preserves_external, HI|intros a].
  apply preserves_ret.
Qed.

Lemma preserves_send_and_await_change I env c :
  plumbing_free I → preserves I (send_and_await_change env c).
Proof.
  intros [Hlog _] st HI. unfold send_and_await_change.
  destruct (provider_send env _); simpl; auto.
Qed.

Lemma preserves_switchChain I env c : plumbing_free I → preserves I (switchChain env c).
Proof.
  intros HI. unfold switchChain.
  apply preserves_bind; [by apply preserves_getProvider|intros p].
  destruct (find_chain env c); [|apply preserves_throw].
  apply preserves_try_catch.
  - destruct p; [|apply preserves_throw].
    destruct (_ || _); [apply preserves_throw|].
    apply preserves_bind; [by apply preserves_send_and_await_change|].
    intros; apply preserves_ret.
  - intros e. destruct (has_code _ _); apply preserves_throw.
Qed.

Lemma preserves_storage_getItem I env k :
  plumbing_free I → preserves I (storage_getItem env k).
Proof.
  intros HI st Hst. unfold storage_getItem. destruct (storage st); [|done].
  revert st Hst. apply preserves_bind; [apply preserves_external, HI|].
  intros; apply preserves_ret.
Qed.

Lemma preserves_storage_setItem I env k v :
  plumbing_free I → storage_free I → preserves I (storage_setItem env k v).
Proof.
  intros HI HS st Hst. unfold storage_setItem. destruct (storage st); [|done].
  revert st Hst. apply preserves_bind; [apply preserves_external, HI|].
  intros; apply preserves_modify. intros; by apply HS.
Qed.

Lemma preserves_storage_removeItem I env k :
  plumbing_free I → storage_free I → preserves I (storage_removeItem env k).
Proof.
  intros HI HS st Hst. unfold storage_removeItem. destruct (storage st); [|done].
  revert st Hst. apply preserves_bind; [apply preserves_external, HI|].
  intros; apply preserves_modify. intros; by apply HS.
Qed.

(** ** The provider slot stays empty outside [connect] *)

Lemma absent_plumbing_free : plumbing_free absent.
Proof. by split. Qed.

Lemma absent_storage_free : storage_free absent.
Proof. by intros v st. Qed.

Lemma preserves_absent_on ev l : preserves absent (on ev l).
Proof. intros st Hst. unfold on. by rewrite Hst. Qed.

Lemma preserves_absent_removeListener ev l : preserves absent (removeListener ev l).
Proof. intros st Hst. unfold removeListener. by rewrite Hst. Qed.

Lemma preserves_absent_attach_pre : preserves absent attach_pre_connect.
Proof.
  unfold attach_pre_connect.
  repeat (apply preserves_bind; [apply preserves_absent_removeListener|intros _]).
  apply preserves_absent_on.
Qed.

Lemma preserves_absent_attach_post : preserves absent attach_post_connect.
Proof.
  unfold attach_post_connect.
  apply preserves_bind; [apply preserves_absent_removeListener|intros _].
  repeat (apply preserves_bind; [apply preserves_absent_on|intros _]).
  apply preserves_absent_on.
Qed.

Lemma preserves_absent_onConnect env c : preserves absent (onConnect env c).
Proof.
  unfold onConnect.
  apply preserves_bind; [apply preserves_getAccounts, absent_plumbing_free|intros a].
  destruct (_ =? _)%nat; [apply preserves_ret|].
  apply preserves_bind; [by apply preserves_modify|intros _].
  apply preserves_bind; [apply preserves_getProvider, absent_plumbing_free|intros p].
  destruct p; [apply preserves_absent_attach_post|apply preserves_ret].
Qed.

Lemma preserves_absent_onDisconnect env e : preserves absent (onDisconnect env e).
Proof.
  unfold onDisconnect.
  apply preserves_bind; [apply preserves_getProvider, absent_plumbing_free|intros p].
  apply preserves_bind.
  - destruct e as [e|]; [|apply preserves_ret].
    destruct (has_code e 1013); [|apply preserves_ret].
    destruct p; [|apply preserves_ret].
    apply preserves_bind; [apply preserves_getAccounts, absent_plumbing_free|].
    intros; apply preserves_ret.
  - intros [|]; [apply preserves_ret|].
    apply preserves_bind; [by apply preserves_modify|intros _].
    apply preserves_bind; [by apply preserves_modify|intros _].
    apply preserves_absent_attach_pre.
Qed.

Lemma preserves_absent_onAccountsChanged env a :
  preserves absent (onAccountsChanged env a).
Proof.
  intros st Hst. unfold onAccountsChanged.
  destruct (length a =? 0)%nat.
  { by apply (preserves_floating _ _ (preserves_absent_onDisconnect env None)). }
  destruct (0 <? connectSubscribers st)%nat; revert st Hst.
  - apply preserves_bind; [apply preserves_getChainId, absent_plumbing_free|intros c].
    apply preserves_bind; [apply preserves_floating, preserves_absent_onConnect|intros _].
    apply preserves_storage_removeItem;
      [apply absent_plumbing_free | apply absent_storage_free].
  - apply preserves_bind; [apply preserves_map_getAddress|intros c].
    by apply preserves_modify.
Qed.

Lemma preserves_absent_setup : preserves absent setup.
Proof.
  unfold setup.
  apply preserves_bind; [apply preserves_getProvider, absent_plumbing_free|intros p].
  destruct p; [apply preserves_absent_on|apply preserves_ret].
Qed.

Lemma preserves_absent_disconnect env : preserves absent (disconnect env).
Proof.
  unfold disconnect.
  apply preserves_bind; [apply preserves_getProvider, absent_plumbing_free|intros p].
  apply preserves_bind; [apply preserves_absent_attach_pre|intros _].
  apply preserves_storage_setItem;
    [apply absent_plumbing_free | apply absent_storage_free].
Qed.

Lemma preserves_absent_isAuthorized env : preserves absent (isAuthorized env).
Proof.
  unfold isAuthorized. apply preserves_try_catch; [|intros; apply preserves_ret].
  apply preserves_bind;
    [apply preserves_storage_getItem, absent_plumbing_free|intros v].
  destruct (truthy v); [apply preserves_ret|].
  apply preserves_bind; [apply preserves_getAccounts, absent_plumbing_free|].
  intros; apply preserves_ret.
Qed.

(** C9: with an empty provider slot [getProvider] resolves to the absent
    value and leaves the slot empty, and so does every method other than
    [connect]: the slot is populated only inside [connect]. *)
Theorem getProvider_unpopulated env st :
  provider st = None →
  (getProvider st).2 = Resolved None
  ∧ provider (getProvider st).1 = None
  ∧ ∀ m, is_connect m = false → provider (run env m st) = None.
Proof.
  intros Hp. split; [by rewrite getProvider_absent|]. split.
  { by apply (preserves_getProvider absent absent_plumbing_free). }
  intros m Hm. destruct m; simpl in Hm; try done; simpl.
  - by apply preserves_absent_setup.
  - by apply preserves_absent_disconnect.
  - by apply preserves_getAccounts; [apply absent_plumbing_free|].
  - by apply preserves_getChainId; [apply absent_plumbing_free|].
  - by apply (preserves_getProvider absent absent_plumbing_free).
  - by apply preserves_absent_isAuthorized.
  - by apply preserves_switchChain; [apply absent_plumbing_free|].
  - by apply preserves_absent_onAccountsChanged.
  - by apply preserves_absent_onConnect.
  - by apply preserves_absent_onDisconnect.
Qed.

Lemma getProvider_unpopulated_witness :
  (getProvider fresh).2 = Resolved None
  ∧ provider (getProvider fresh).1 = None
  ∧ ∀ m, is_connect m = false → provider (run demo_env m fresh) = None.
Proof. apply (getProvider_unpopulated demo_env fresh). reflexivity. Defined.

(** C10: on a connector whose provider slot is empty, [disconnect],
    [getAccounts] and [getChainId] each reject with the runtime error of a
    member access on undefined: none of them guards the value that
    [getProvider] returned. *)
Theorem absent_provider_dereferenced env st :
  provider st = None →
  (disconnect env st).2 = Rejected TypeError
  ∧ (getAccounts env st).2 = Rejected TypeError
  ∧ (getChainId env st).2 = Rejected TypeError.
Proof.
  intros Hp. repeat split.
  - unfold disconnect, bind. rewrite getProvider_absent by done.
    unfold attach_pre_connect, bind, removeListener.
    by destruct (providerPromise st); simpl; rewrite Hp.
  - unfold getAccounts, bind. by rewrite getProvider_absent.
  - unfold getChainId, bind. by rewrite getProvider_absent.
Qed.

Lemma absent_provider_dereferenced_witness :
  (disconnect demo_env fresh).2 = Rejected TypeError
  ∧ (getAccounts demo_env fresh).2 = Rejected TypeError
  ∧ (getChainId demo_env fresh).2 = Rejected TypeError.
Proof. apply (absent_provider_dereferenced demo_env fresh). reflexivity. Defined.

(** ** Overlapping [getProvider] invocations share one creation *)

Lemma start_all_pending n st pr :
  provider st = None → providerPromise st = Some pr →
  start_all n st = (st, replicate n (Awaiting pr)).
Proof.
  intros Hp Hq. induction n as [|n IH]; simpl; [done|].
  unfold getProvider_start. rewrite Hp, Hq, IH. done.
Qed.

Lemma resume_all_pending n st :
  ∃ st', resume_all (replicate n (Awaiting PromiseOfUndefined)) st
         = (st', replicate n (Resolved None))
         ∧ trace st' = trace st.
Proof.
  revert st. induction n as [|n IH]; intros st; simpl; [eauto|].
  destruct (IH (set_provider None st)) as (st' & -> & Htr). eauto.
Qed.

Lemma concurrent_getProvider_unstarted n st :
  provider st = None → providerPromise st = None →
  ∃ st', concurrent_getProvider (S n) st = (st', replicate (S n) (Resolved None))
         ∧ trace st' = trace st ++ [CallInitProvider].
Proof.
  intros Hp Hq. unfold concurrent_getProvider. simpl.
  unfold getProvider_start. rewrite Hp, Hq. simpl.
  rewrite (start_all_pending n _ PromiseOfUndefined) by done.
  simpl.
  destruct (resume_all_pending n
    (set_provider None
      (set_providerPromise (Some PromiseOfUndefined) (log CallInitProvider st))))
    as (st' & -> & Htr).
  eauto.
Qed.

Lemma start_all_cached n st p :
  provider st = Some p → start_all n st = (st, replicate n (Ready p)).
Proof.
  intros Hp. induction n as [|n IH]; simpl; [done|].
  unfold getProvider_start. by rewrite Hp, IH.
Qed.

Lemma resume_all_cached n st p :
  resume_all (replicate n (Ready p)) st = (st, replicate n (Resolved (Some p))).
Proof. induction n as [|n IH]; simpl; [done|]. by rewrite IH. Qed.

(** In any state, a batch of overlapping invocations starts at most one
    creation and hands every caller the same value. *)
Lemma getProvider_concurrent_at_most_once n st :
  (creation_attempts (trace (concurrent_getProvider n st).1)
     ≤ S (creation_attempts (trace st)))%nat
  ∧ ∃ h, Forall (λ r, r = Resolved h) (concurrent_getProvider n st).2.
Proof.
  destruct (provider st) as [p|] eqn:Hp.
  { unfold concurrent_getProvider.
    rewrite (start_all_cached n st p Hp), resume_all_cached. cbn [fst snd].
    split; [lia|]. exists (Some p). by apply Forall_replicate. }
  destruct (providerPromise st) as [[]|] eqn:Hq.
  { unfold concurrent_getProvider.
    rewrite (start_all_pending n st PromiseOfUndefined Hp Hq).
    destruct (resume_all_pending n st) as (st' & -> & Htr). cbn [fst snd].
    rewrite Htr. split; [lia|]. exists None. by apply Forall_replicate. }
  destruct n as [|n].
  { cbn. split; [lia|]. by exists None. }
  destruct (concurrent_getProvider_unstarted n st Hp Hq) as (st' & -> & Htr).
  cbn [fst snd]. rewrite Htr. split.
  - unfold creation_attempts. rewrite filter_app, length_app. simpl. lia.
  - exists None. by apply Forall_replicate.
Qed.

(** C2: [n] invocations of [getProvider] that all start before any of them
    continues, on a connector with no provider and no creation under way,
    call [initProvider] exactly once, and all of them resolve to the same
    value. *)
Theorem getProvider_concurrent_once n st :
  (0 < n)%nat → provider st = None → providerPromise st = None →
  creation_attempts (trace (concurrent_getProvider n st).1)
    = S (creation_attempts (trace st))
  ∧ length (concurrent_getProvider n st).2 = n
  ∧ ∃ h, Forall (λ r, r = Resolved h) (concurrent_getProvider n st).2.
Proof.
  intros Hn Hp Hq. destruct n as [|n]; [lia|].
  destruct (concurrent_getProvider_unstarted n st Hp Hq) as (st' & -> & Htr).
  cbn [fst snd]. rewrite Htr. repeat split.
  - unfold creation_attempts. rewrite filter_app, length_app. simpl. lia.
  - by rewrite length_replicate.
  - exists None. by apply Forall_replicate.
Qed.

Lemma getProvider_concurrent_once_witness :
  creation_attempts (trace (concurrent_getProvider 3 fresh).1) = 1%nat
  ∧ (concurrent_getProvider 3 fresh).2
    = [Resolved None; Resolved None; Resolved None].
Proof.
  destruct (getProvider_concurrent_once 3 fresh) as (H1 & _ & _);
    [lia | reflexivity | reflexivity |].
  split; [exact H1 | reflexivity].
Defined.

(** ** Missing application id *)

(** C3: [connect] on a connector with no cached provider and no (or an
    empty) [appId] rejects with [Error('appId not found')].  Up to then it
    has only loaded the SDK module: the trace gains that import and no call
    on the SDK client, the signer or the provider, and no provider is
    constructed. *)
Theorem connect_without_appId env chainId isReconnecting st :
  provider st = None →
  appId env = None ∨ appId env = Some "" →
  (connect env chainId isReconnecting st).2 = Rejected (JsError "appId not found")
  ∧ trace (connect env chainId isReconnecting st).1 = trace st ++ [CallImportSdk]
  ∧ filter is_sdk_call (trace (connect env chainId isReconnecting st).1)
    = filter is_sdk_call (trace st)
  ∧ provider (connect env chainId isReconnecting st).1 = None.
Proof.
  intros Hp Happ.
  assert (configured_appId env = None) as Hc.
  { unfold configured_appId. by destruct Happ as [-> | ->]. }
  assert (connect env chainId isReconnecting st
          = (log CallImportSdk st, Rejected (JsError "appId not found"))) as ->.
  { unfold connect. unfold bind at 1. rewrite Hp.
    unfold construct_provider. unfold bind at 1. unfold external.
    cbn beta iota. by rewrite Hc. }
  cbn [fst snd]. repeat split; [|done].
  cbn [trace log]. rewrite filter_app. simpl. by rewrite app_nil_r.
Qed.

Lemma connect_without_appId_witness :
  (connect unconfigured_env None false fresh).2
  = Rejected (JsError "appId not found").
Proof.
  apply (connect_without_appId unconfigured_env None false fresh);
    [reflexivity | left; reflexivity].
Defined.

(** ** Switching to a chain that is not configured *)

Lemma find_chain_unconfigured env chainId :
  chainId ∉ chain_id <$> chains env → find_chain env chainId = None.
Proof.
  unfold find_chain. induction (chains env) as [|x xs IH]; simpl; [done|].
  intros Hnot. apply not_elem_of_cons in Hnot as [Hx Hxs].
  destruct (Z.eqb_spec (chain_id x) chainId); [congruence | auto].
Qed.

Lemma switchChain_unconfigured env chainId st :
  find_chain env chainId = None →
  switchChain env chainId st
  = ((getProvider st).1, Rejected (SwitchChainError ChainNotConfiguredError)).
Proof.
  intros Hf. unfold switchChain, bind. rewrite Hf.
  destruct (provider st) as [p|] eqn:Hp.
  - by rewrite (getProvider_cached st p).
  - by rewrite getProvider_absent.
Qed.

Lemma rpc_requests_getProvider st :
  rpc_requests (trace (getProvider st).1) = rpc_requests (trace st).
Proof.
  destruct (provider st) as [p|] eqn:Hp.
  - by rewrite (getProvider_cached st p).
  - rewrite getProvider_absent by done. destruct (providerPromise st); [done|].
    cbn [fst trace set_providerPromise log]. unfold rpc_requests.
    rewrite filter_app. simpl. by rewrite app_nil_r.
Qed.

(** C7: a chain id that is not among [config.chains] makes [switchChain]
    fail with the switch-chain error wrapping [ChainNotConfiguredError], and
    no [provider.send] request is added to the trace. *)
Theorem switchChain_not_configured env chainId st :
  chainId ∉ chain_id <$> chains env →
  (switchChain env chainId st).2
    = Rejected (SwitchChainError ChainNotConfiguredError)
  ∧ rpc_requests (trace (switchChain env chainId st).1)
    = rpc_requests (trace st).
Proof.
  intros Hnot.
  rewrite switchChain_unconfigured by by apply find_chain_unconfigured.
  split; [done | apply rpc_requests_getProvider].
Qed.

(** The scenario of the specification: chain 137 requested, only Amoy
    configured. *)
Lemma switchChain_not_configured_witness :
  (switchChain demo_env 137 fresh).2
    = Rejected (SwitchChainError ChainNotConfiguredError)
  ∧ rpc_requests (trace (switchChain demo_env 137 fresh).1) = [].
Proof.
  apply (switchChain_not_configured demo_env 137 fresh).
  simpl. intros H. apply list_elem_of_singleton in H. discriminate H.
Defined.

(** ** Authorization probe *)

Lemma isAuthorized_unfold env st :
  isAuthorized env st =
  match storage_getItem env disconnected_key st with
  | (st1, Resolved v) =>
      if truthy v then (st1, Resolved false)
      else match getAccounts env st1 with
           | (st2, Resolved accounts) =>
               (st2, Resolved (negb (length accounts =? 0)%nat))
           | (st2, Rejected _) => (st2, Resolved false)
           | (st2, Pending) => (st2, Pending)
           end
  | (st1, Rejected _) => (st1, Resolved false)
  | (st1, Pending) => (st1, Pending)
  end.
Proof.
  unfold isAuthorized, try_catch, bind.
  destruct (storage_getItem env disconnected_key st) as [st1 [v|e|]]; try done.
  destruct (truthy v); [done|].
  by destruct (getAccounts env st1) as [st2 [a|e|]].
Qed.

Lemma storage_getItem_present env key st m :
  storage st = Some m →
  storage_getItem env key st =
  (log (CallStorageGet key) st,
   match storage_backend env (length (trace st)) with
   | Resolved _ => Resolved (m !! key)
   | Rejected e => Rejected e
   | Pending => Pending
   end).
Proof.
  intros Hs. unfold storage_getItem, bind, external. rewrite Hs.
  by destruct (storage_backend env _).
Qed.

(** C5: [isAuthorized] never rejects.  With the flag stored as true it
    resolves to false once the storage read settles, whatever the accounts
    are.  With the flag not set it resolves to whether [getAccounts] yields
    a non-empty list, and to false when [getAccounts] rejects.  When the
    storage read itself rejects it resolves to false. *)
Theorem isAuthorized_never_rejects env st :
  (∀ e, (isAuthorized env st).2 ≠ Rejected e)
  ∧ (∀ m, storage st = Some m → m !! disconnected_key = Some true →
          storage_backend env (length (trace st)) ≠ Pending →
          (isAuthorized env st).2 = Resolved false)
  ∧ (∀ st1 v, storage_getItem env disconnected_key st = (st1, Resolved v) →
          truthy v = false →
          (isAuthorized env st).2 =
          match (getAccounts env st1).2 with
          | Resolved accounts => Resolved (negb (length accounts =? 0)%nat)
          | Rejected _ => Resolved false
          | Pending => Pending
          end)
  ∧ (∀ st1 e, storage_getItem env disconnected_key st = (st1, Rejected e) →
          (isAuthorized env st).2 = Resolved false).
Proof.
  rewrite isAuthorized_unfold. repeat split.
  - intros e.
    destruct (storage_getItem env disconnected_key st) as [st1 [v|e'|]]; try done.
    destruct (truthy v); [done|].
    by destruct (getAccounts env st1) as [st2 [a|e'|]].
  - intros m Hs Hflag Hback. rewrite (storage_getItem_present env _ st m Hs).
    destruct (storage_backend env _) as [[]|e|]; try done.
    by rewrite Hflag.
  - intros st1 v -> ->. by destruct (getAccounts env st1) as [st2 [a|e|]].
  - by intros st1 e ->.
Qed.

Lemma isAuthorized_never_rejects_witness :
  (isAuthorized demo_env flagged).2 = Resolved false
  ∧ (isAuthorized demo_env connected).2 = Resolved true
  ∧ (isAuthorized storage_down_env flagged).2 = Resolved false.
Proof.
  split; [|split].
  - destruct (isAuthorized_never_rejects demo_env flagged) as (_ & Hflag & _).
    apply (Hflag {[disconnected_key := true]});
      [reflexivity | vm_compute; reflexivity | simpl; discriminate].
  - destruct (isAuthorized_never_rejects demo_env connected) as (_ & _ & Hacc & _).
    apply (Hacc (storage_getItem demo_env disconnected_key connected).1 None);
      [vm_compute; reflexivity | reflexivity].
  - destruct (isAuthorized_never_rejects storage_down_env flagged) as (_ & _ & _ & Herr).
    apply (Herr (storage_getItem storage_down_env disconnected_key flagged).1
                (ProviderError None)).
    vm_compute; reflexivity.
Defined.

(** ** Provider events *)

(** C6: [onAccountsChanged] with an empty list leaves the connector in the
    state that [onDisconnect] without argument leaves it in: the same events
    emitted to the host and the same listeners on the provider. *)
Theorem onAccountsChanged_empty_is_onDisconnect env st :
  (onAccountsChanged env [] st).1 = (onDisconnect env None st).1
  ∧ emitted (onAccountsChanged env [] st).1 = emitted (onDisconnect env None st).1
  ∧ provider (onAccountsChanged env [] st).1 = provider (onDisconnect env None st).1.
Proof. done. Qed.

Lemma getAccounts_absent env st :
  provider st = None → (getAccounts env st).2 = Rejected TypeError.
Proof. intros Hp. unfold getAccounts, bind. by rewrite getProvider_absent. Qed.

(** C8: [onDisconnect] with an error of code 1013, while [getAccounts]
    still yields a non-empty list, resolves without emitting anything and
    without touching the provider's listeners, the host storage or the
    cached values. *)
Theorem onDisconnect_1013_with_accounts env st e st1 accounts :
  error_code e = Some 1013 →
  getAccounts env st = (st1, Resolved accounts) →
  accounts ≠ [] →
  (onDisconnect env (Some e) st).2 = Resolved tt
  ∧ emitted (onDisconnect env (Some e) st).1 = emitted st
  ∧ provider (onDisconnect env (Some e) st).1 = provider st
  ∧ effects (onDisconnect env (Some e) st).1 = effects st.
Proof.
  intros Hcode Hacc Hne.
  destruct (provider st) as [p|] eqn:Hp; cycle 1.
  { pose proof (getAccounts_absent env st Hp) as H. by rewrite Hacc in H. }
  assert (onDisconnect env (Some e) st = (st1, Resolved tt)) as ->.
  { unfold onDisconnect. unfold bind at 1. rewrite (getProvider_cached st p Hp).
    unfold has_code. rewrite Hcode. cbn beta iota. rewrite Z.eqb_refl.
    unfold bind. rewrite Hacc. by destruct accounts. }
  assert (effects st1 = effects st) as He.
  { replace st1 with (getAccounts env st).1 by by rewrite Hacc.
    by apply (preserves_getAccounts (λ s, effects s = effects st)). }
  cbn [fst snd]. split; [done|]. unfold effects in He.
  injection He as H1 H2 H3 H4. unfold effects. by rewrite H1, H2, H3, H4.
Qed.

Lemma onDisconnect_1013_with_accounts_witness :
  (onDisconnect demo_env (Some (ProviderError (Some 1013))) connected).2
    = Resolved tt
  ∧ emitted (onDisconnect demo_env (Some (ProviderError (Some 1013))) connected).1
    = emitted connected
  ∧ provider (onDisconnect demo_env (Some (ProviderError (Some 1013))) connected).1
    = provider connected
  ∧ effects (onDisconnect demo_env (Some (ProviderError (Some 1013))) connected).1
    = effects connected.
Proof.
  apply (onDisconnect_1013_with_accounts demo_env connected
           (ProviderError (Some 1013))
           (getAccounts demo_env connected).1 ["0xa11ce"]);
    [reflexivity | vm_compute; reflexivity | discriminate].
Defined.

(** ** Listener sets *)

Lemma preserves_run {A} I (m : Async A) st st' o :
  preserves I m → I st → m st = (st', o) → I st'.
Proof. intros Hm HI Hrun. specialize (Hm st HI). by rewrite Hrun in Hm. Qed.

Lemma holds_plumbing_free v : plumbing_free (holds v).
Proof. by split. Qed.

Lemma holds_storage_free v : storage_free (holds v).
Proof. by intros w st. Qed.

Lemma existsb_remove_first (f : EventName * Listener → bool) ev l es :
  existsb f es = false → existsb f (remove_first ev l es) = false.
Proof.
  induction es as [|[ev' l'] es IH]; simpl; [done|].
  intros [H1 H2]%orb_false_iff. case_bool_decide; [done|].
  simpl. by rewrite H1, IH.
Qed.

Lemma attach_post_connect_cached st p :
  provider st = Some p →
  ∃ st', attach_post_connect st = (st', Resolved tt)
    ∧ provider st' = Some (mkProvider
        (remove_first EvConnect (BoundOnConnect (nextBound st)) (events p)
         ++ [(EvAccountsChanged, BoundOnAccountsChanged (S (nextBound st)));
             (EvChainChanged, OnChainChanged);
             (EvDisconnect, BoundOnDisconnect (S (S (nextBound st))))])).
Proof.
  intros Hp. eexists. split.
  - unfold attach_post_connect, bind, removeListener, on, bind_this, modify, ret, bind.
    simpl. rewrite Hp. simpl. reflexivity.
  - simpl. unfold provider_on, provider_removeListener. simpl.
    by rewrite <- !app_assoc.
Qed.

Lemma attach_post_connect_exact st p st' o :
  provider st = Some p → listening p EvConnect = false →
  attach_post_connect st = (st', o) →
  ∃ p', provider st' = Some p' ∧ ∀ ev, listening p' ev = post_connect_set ev.
Proof.
  intros Hp Hc Hrun.
  destruct (attach_post_connect_cached st p Hp) as (st'' & Heq & Hp').
  rewrite Heq in Hrun. simplify_eq. eexists. split; [done|].
  intros ev. unfold listening in *. cbn [events]. rewrite existsb_app.
  destruct ev; simpl; rewrite ?orb_true_r; try done.
  rewrite orb_false_r. by apply existsb_remove_first.
Qed.

Lemma construct_provider_resolved env st st' u :
  construct_provider env st = (st', Resolved u) →
  provider st' = Some new_Web3Provider.
Proof.
  unfold construct_provider. intros (st1 & [] & _ & H)%bind_resolved.
  destruct (configured_appId env); [|done].
  apply bind_resolved in H as (st2 & [] & _ & H).
  apply bind_resolved in H as (st3 & [] & _ & H).
  unfold modify in H. by simplify_eq.
Qed.

(** The part of [connect] that follows the listener swap. *)
Lemma preserves_connect_tail env chainId accounts v :
  preserves (holds v)
    (let* currentChainId := getChainId env in
     let* currentChainId :=
       match chainId with
       | Some requested =>
           if negb (requested =? 0) && negb (currentChainId =? requested) then
             let* chain :=
               try_catch (switchChain env requested)
                 (fun error =>
                    if has_code error UserRejectedRequestError_code
                    then throw error
                    else ret (mkChain currentChainId)) in
             ret (chain_id chain)
           else ret currentChainId
       | None => ret currentChainId
       end in
     storage_removeItem env disconnected_key ;;
     ret (mkConnectResult accounts currentChainId)).
Proof.
  apply preserves_bind; [apply preserves_getChainId, holds_plumbing_free|intros cur].
  apply preserves_bind.
  - destruct chainId as [requested|]; [|apply preserves_ret].
    destruct (_ && _); [|apply preserves_ret].
    apply preserves_bind; [|intros; apply preserves_ret].
    apply preserves_try_catch; [apply preserves_switchChain, holds_plumbing_free|].
    intros e. destruct (has_code _ _); [apply preserves_throw|apply preserves_ret].
  - intros cur'. apply preserves_bind; [|intros; apply preserves_ret].
    apply preserves_storage_removeItem;
      [apply holds_plumbing_free|apply holds_storage_free].
Qed.

Lemma connect_resolved_exact env chainId isReconnecting st st' res :
  connect env chainId isReconnecting st = (st', Resolved res) →
  (∀ p, provider st = Some p → listening p EvConnect = false) →
  ∃ p', provider st' = Some p' ∧ ∀ ev, listening p' ev = post_connect_set ev.
Proof.
  intros H Hpre. unfold connect in H.
  apply bind_resolved in H as (st1 & [] & H1 & H).
  assert (∃ p1, provider st1 = Some p1 ∧ listening p1 EvConnect = false)
    as (p1 & Hp1 & Hc1).
  { destruct (provider st) as [p|] eqn:Hp.
    - unfold ret in H1. simplify_eq. eauto.
    - apply construct_provider_resolved in H1. eauto. }
  apply bind_resolved in H as (st2 & accounts & H2 & H).
  assert (provider st2 = Some p1) as Hp2.
  { eapply (preserves_run (holds (Some p1))); [|exact Hp1|exact H2].
    destruct isReconnecting; [|apply preserves_ret].
    apply preserves_try_catch; [|intros; apply preserves_ret].
    apply preserves_getAccounts, holds_plumbing_free. }
  apply try_catch_resolved in H as [H | (st3 & e & _ & H)]; cycle 1.
  { by repeat destruct (has_code _ _). }
  apply bind_resolved in H as (st3 & accounts' & H3 & H).
  assert (provider st3 = Some p1) as Hp3.
  { eapply (preserves_run (holds (Some p1))); [|exact Hp2|exact H3].
    destruct (_ =? _)%nat; [|apply preserves_ret].
    apply preserves_bind; [by apply preserves_external|intros; apply preserves_ret]. }
  apply bind_resolved in H as (st4 & [] & H4 & H).
  destruct (attach_post_connect_exact st3 p1 st4 _ Hp3 Hc1 H4) as (p4 & Hp4 & Hset).
  exists p4. split; [|done].
  exact (preserves_run _ _ _ _ _
           (preserves_connect_tail env chainId accounts' (Some p4)) Hp4 H).
Qed.

Lemma connect_fails_at_address env chainId isReconnecting st a e :
  provider st = None →
  configured_appId env = Some a →
  (∀ n, sdk_ethereum env n = Resolved tt) →
  (∀ n, signer_getAddress env n = Rejected e) →
  (∃ e', (connect env chainId isReconnecting st).2 = Rejected e')
  ∧ provider (connect env chainId isReconnecting st).1 = Some new_Web3Provider.
Proof.
  intros Hp Ha Hsdk Hsig.
  unfold connect, construct_provider, getAccounts, getProvider,
    getProvider_start, getProvider_resume, getSigner, external, modify,
    try_catch, bind, ret, throw.
  rewrite Hp, Ha. cbn. rewrite Hsdk. cbn.
  destruct isReconnecting; cbn; rewrite ?Hsig; cbn; rewrite ?Hsig; cbn;
    repeat destruct (has_code _ _); cbn; eauto.
Qed.

(** C1, as amended: a successful [connect] that starts with no [connect]
    listener on the provider (as the first [connect] of a connector does)
    leaves listeners for exactly accountsChanged, chainChanged and
    disconnect; and a [connect] that constructs the provider and then fails
    at the address request leaves the provider cached with no listener at
    all, so that neither listener set is attached. *)
Theorem connect_listener_sets :
  (∀ env chainId isReconnecting st st' res,
     connect env chainId isReconnecting st = (st', Resolved res) →
     (∀ p, provider st = Some p → listening p EvConnect = false) →
     ∃ p', provider st' = Some p'
           ∧ (∀ ev, listening p' ev = post_connect_set ev)
           ∧ pre_attached p' = false)
  ∧ (∀ env chainId isReconnecting st a e,
       provider st = None →
       configured_appId env = Some a →
       (∀ n, sdk_ethereum env n = Resolved tt) →
       (∀ n, signer_getAddress env n = Rejected e) →
       ∃ p', provider (connect env chainId isReconnecting st).1 = Some p'
             ∧ pre_attached p' = false ∧ post_attached p' = false).
Proof.
  split.
  - intros env chainId isReconnecting st st' res H Hpre.
    destruct (connect_resolved_exact _ _ _ _ _ _ H Hpre) as (p' & Hp' & Hset).
    exists p'. repeat split; [done..|]. apply (Hset EvConnect).
  - intros env chainId isReconnecting st a e Hp Ha Hsdk Hsig.
    exists new_Web3Provider. split; [|done].
    by eapply connect_fails_at_address.
Qed.

Lemma connect_listener_sets_witness :
  (∃ p', provider connected = Some p'
         ∧ (∀ ev, listening p' ev = post_connect_set ev)
         ∧ pre_attached p' = false)
  ∧ (∃ p', provider (connect declining_env None false fresh).1 = Some p'
           ∧ pre_attached p' = false ∧ post_attached p' = false).
Proof.
  destruct connect_listener_sets as [Hok Hfail]. split.
  - apply (Hok demo_env None false fresh connected
             (mkConnectResult ["0xa11ce"] amoy)); [vm_compute; reflexivity|].
    intros p Hp. discriminate Hp.
  - apply (Hfail declining_env None false fresh "app-id"
             (ProviderError (Some UserRejectedRequestError_code)));
      reflexivity.
Defined.

(** C1, as stated, fails.  After connect, disconnect and a second
    successful connect the provider still has a [connect] listener, next to
    the post-connect listeners; and after a first [connect] that is declined
    at the address request a provider exists with neither set attached. *)
Lemma connect_listener_sets_counterexample :
  ((connect demo_env None false disconnected).2
     = Resolved (mkConnectResult ["0xa11ce"] amoy)
   ∧ ∃ p, provider (run demo_env (MConnect None false) disconnected) = Some p
          ∧ listening p EvConnect = true
          ∧ pre_attached p = true ∧ post_attached p = true)
  ∧ (∃ p, provider (run declining_env (MConnect None false) fresh) = Some p
          ∧ pre_attached p = false ∧ post_attached p = false).
Proof.
  split; [split|].
  - vm_compute; reflexivity.
  - exists (mkProvider
              [(EvAccountsChanged, BoundOnAccountsChanged 1);
               (EvDisconnect, BoundOnDisconnect 2);
               (EvConnect, BoundOnConnect 5);
               (EvAccountsChanged, BoundOnAccountsChanged 7);
               (EvChainChanged, OnChainChanged);
               (EvDisconnect, BoundOnDisconnect 8)]).
    repeat split; vm_compute; reflexivity.
  - exists new_Web3Provider. repeat split; vm_compute; reflexivity.
Qed.

(** ** Disconnecting *)

(** C4, evaluated on a connector that has just connected: [disconnect]
    succeeds, sets the flag and keeps the provider, but only the
    chainChanged listener is removed; the accountsChanged and disconnect
    listeners registered by [connect] stay attached next to the new connect
    listener, so the listener set is not the pre-connect set. *)
Theorem disconnect_after_connect :
  (connect demo_env None false fresh).2
    = Resolved (mkConnectResult ["0xa11ce"] amoy)
  ∧ (disconnect demo_env connected).2 = Resolved tt
  ∧ events <$> provider disconnected
    = Some [(EvAccountsChanged, BoundOnAccountsChanged 1);
            (EvDisconnect, BoundOnDisconnect 2);
            (EvConnect, BoundOnConnect 5)]
  ∧ (∃ p, provider disconnected = Some p
          ∧ listening p EvConnect = true
          ∧ listening p EvAccountsChanged = true
          ∧ listening p EvDisconnect = true
          ∧ listening p EvChainChanged = false
          ∧ ¬ ∀ ev, listening p ev = pre_connect_set ev)
  ∧ (storage disconnected ≫= (λ m, m !! disconnected_key)) = Some true.
Proof.
  repeat split; try (vm_compute; reflexivity).
  exists (mkProvider
            [(EvAccountsChanged, BoundOnAccountsChanged 1);
             (EvDisconnect, BoundOnDisconnect 2);
             (EvConnect, BoundOnConnect 5)]).
  repeat split; try (vm_compute; reflexivity).
  intros Hall. specialize (Hall EvDisconnect). vm_compute in Hall.
  discriminate Hall.
Qed.

(** *** What [disconnect] does to a cached provider *)

Lemma remove_first_unregistered ev l es :
  (ev, l) ∉ es → remove_first ev l es = es.
Proof.
  induction es as [|[ev' l'] es IH]; simpl; [done|].
  intros [Hne Hnot]%not_elem_of_cons.
  case_bool_decide as Heq; [destruct Heq; congruence|].
  by rewrite IH.
Qed.

Lemma elem_of_remove_first x ev l es : x ∈ remove_first ev l es → x ∈ es.
Proof.
  induction es as [|[ev' l'] es IH]; simpl; [done|].
  case_bool_decide; [by right|].
  intros [->|Hin]%elem_of_cons; [by left | right; auto].
Qed.

Lemma listening_remove_first_other ev ev' l es :
  ev ≠ ev' →
  existsb (λ e : EventName * Listener, bool_decide (e.1 = ev)) (remove_first ev' l es)
  = existsb (λ e : EventName * Listener, bool_decide (e.1 = ev)) es.
Proof.
  intros Hne. induction es as [|[ev1 l1] es IH]; simpl; [done|].
  case_bool_decide as Heq; [|by simpl; rewrite IH].
  destruct Heq as [-> _]. by rewrite bool_decide_eq_false_2.
Qed.

Lemma attach_pre_connect_cached st p :
  provider st = Some p →
  ∃ st', attach_pre_connect st = (st', Resolved tt)
    ∧ trace st' = trace st ∧ storage st' = storage st
    ∧ provider st' = Some (mkProvider
        (remove_first EvDisconnect (BoundOnDisconnect (S (nextBound st)))
           (remove_first EvChainChanged OnChainChanged
              (remove_first EvAccountsChanged
                 (BoundOnAccountsChanged (nextBound st)) (events p)))
         ++ [(EvConnect, BoundOnConnect (S (S (nextBound st))))])).
Proof.
  intros Hp. eexists. split.
  - unfold attach_pre_connect, bind, removeListener, on, bind_this, modify, ret, bind.
    simpl. rewrite Hp. simpl. reflexivity.
  - done.
Qed.

(** On a cached provider [disconnect] reaches the storage write; it
    resolves and sets the flag when the host has a storage whose backend
    answers; the provider stays cached and gets a [connect] listener; and
    every listener that [connect] or [onConnect] registered through [bind]
    is still attached, because the function objects passed to
    [removeListener] are new ones. *)
Lemma disconnect_cached env st p m :
  provider st = Some p →
  storage st = Some m →
  storage_backend env (length (trace st)) = Resolved tt →
  (∀ ev l, (ev, l) ∈ events p → allocated st l) →
  (disconnect env st).2 = Resolved tt
  ∧ storage (disconnect env st).1 = Some (<[disconnected_key := true]> m)
  ∧ ∃ p', provider (disconnect env st).1 = Some p'
          ∧ listening p' EvConnect = true
          ∧ (∀ ev, ev ≠ EvChainChanged →
                   listening p ev = true → listening p' ev = true).
Proof.
  intros Hp Hs Hback Halloc.
  destruct (attach_pre_connect_cached st p Hp) as (st1 & Hrun & Htr & Hst & Hp1).
  assert (disconnect env st
          = (set_storage (Some (<[disconnected_key := true]> m))
               (log (CallStorageSet disconnected_key true) st1), Resolved tt)) as ->.
  { unfold disconnect. unfold bind at 1. rewrite (getProvider_cached st p Hp).
    unfold bind at 1. rewrite Hrun.
    unfold storage_setItem. rewrite Hst, Hs.
    unfold bind, external, modify. by rewrite Htr, Hback. }
  cbn [fst snd]. repeat split.
  eexists. split; [exact Hp1|]. unfold listening. cbn [events].
  rewrite existsb_app. split; [by rewrite orb_true_r|].
  intros ev Hev Hl. rewrite existsb_app. apply orb_true_iff. left.
  rewrite (remove_first_unregistered EvAccountsChanged).
  2:{ intros Hin. specialize (Halloc _ _ Hin). simpl in Halloc. lia. }
  rewrite (remove_first_unregistered EvDisconnect).
  2:{ intros Hin%elem_of_remove_first. specialize (Halloc _ _ Hin).
      simpl in Halloc. lia. }
  by rewrite listening_remove_first_other.
Qed.

Lemma disconnect_cached_witness :
  (disconnect demo_env connected).2 = Resolved tt.
Proof.
  eapply (disconnect_cached demo_env connected
            (mkProvider [(EvAccountsChanged, BoundOnAccountsChanged 1);
                         (EvChainChanged, OnChainChanged);
                         (EvDisconnect, BoundOnDisconnect 2)]) ∅).
  - vm_compute; reflexivity.
  - vm_compute; reflexivity.
  - reflexivity.
  - intros ev l Hin. simpl in Hin.
    repeat (apply elem_of_cons in Hin as [Hin|Hin]; [inversion Hin; vm_compute; lia|]).
    by apply elem_of_nil in Hin.
Defined.

(** * Further properties of the connector *)

(** ** Methods preserve what their steps preserve *)

Section Respected.
Context (allowed : Call → bool) (I : State → Prop).
Context (HI : respected allowed I).

Lemma respected_external {A} c (o : nat → Outcome A) :
  allowed c = true → preserves I (external c o).
Proof. intros Hc. apply preserves_external. intros st. by apply (by_log _ _ HI). Qed.

Lemma respected_getAccounts env :
  allowed CallSignerGetAddress = true → preserves I (getAccounts env).
Proof.
  intros Hc. unfold getAccounts.
  apply preserves_bind; [apply (by_getProvider _ _ HI)|intros p].
  apply preserves_bind; [apply preserves_getSigner|intros _].
  apply preserves_bind; [by apply respected_external|intros a].
  apply preserves_map_getAddress.
Qed.

Lemma respected_getChainId env :
  allowed CallSignerGetChainId = true → preserves I (getChainId env).
Proof.
  intros Hc. unfold getChainId.
  apply preserves_bind; [apply (by_getProvider _ _ HI)|intros p].
  apply preserves_bind; [apply preserves_getSigner|intros _].
  apply preserves_bind; [by apply respected_external|intros a].
  apply preserves_ret.
Qed.

Lemma respected_switchChain env chainId :
  (∀ method z, allowed (CallProviderSend method z) = true) →
  preserves I (switchChain env chainId).
Proof.
  intros Hc. unfold switchChain.
  apply preserves_bind; [apply (by_getProvider _ _ HI)|intros p].
  destruct (find_chain env chainId); [|apply preserves_throw].
  apply preserves_try_catch.
  - destruct p; [|apply preserves_throw].
    destruct (_ || _); [apply preserves_throw|].
    apply preserves_bind; [|intros; apply preserves_ret].
    intros st Hst. unfold send_and_await_change.
    destruct (provider_send env _); simpl; by apply (by_log _ _ HI).
  - intros e. destruct (has_code _ _); apply preserves_throw.
Qed.

Lemma respected_storage_getItem env key :
  allowed (CallStorageGet key) = true → preserves I (storage_getItem env key).
Proof.
  intros Hc st Hst. unfold storage_getItem. destruct (storage st); [|done].
  revert st Hst. apply preserves_bind; [by apply respected_external|].
  intros; apply preserves_ret.
Qed.

Lemma respected_storage_setItem env key v :
  allowed (CallStorageSet key v) = true → preserves I (storage_setItem env key v).
Proof.
  intros Hc st Hst. unfold storage_setItem. destruct (storage st); [|done].
  revert st Hst. apply preserves_bind; [by apply respected_external|].
  intros; apply preserves_modify. intros st. apply (by_storage _ _ HI).
Qed.

Lemma respected_storage_removeItem env key :
  allowed (CallStorageRemove key) = true → preserves I (storage_removeItem env key).
Proof.
  intros Hc st Hst. unfold storage_removeItem. destruct (storage st); [|done].
  revert st Hst. apply preserves_bind; [by apply respected_external|].
  intros; apply preserves_modify. intros st. apply (by_storage _ _ HI).
Qed.

Lemma respected_onConnect env c :
  allowed CallSignerGetAddress = true → preserves I (onConnect env c).
Proof.
  intros Hc. unfold onConnect.
  apply preserves_bind; [by apply respected_getAccounts|intros a].
  destruct (_ =? _)%nat; [apply preserves_ret|].
  apply preserves_bind; [apply preserves_modify; intros st; apply (by_emit _ _ HI)|intros _].
  apply preserves_bind; [apply (by_getProvider _ _ HI)|intros p].
  destruct p; [apply (by_post_connect _ _ HI)|apply preserves_ret].
Qed.

Lemma respected_onDisconnect env e :
  allowed CallSignerGetAddress = true → preserves I (onDisconnect env e).
Proof.
  intros Hc. unfold onDisconnect.
  apply preserves_bind; [apply (by_getProvider _ _ HI)|intros p].
  apply preserves_bind.
  - destruct e as [e|]; [|apply preserves_ret].
    destruct (has_code e 1013); [|apply preserves_ret].
    destruct p; [|apply preserves_ret].
    apply preserves_bind; [by apply respected_getAccounts|].
    intros; apply preserves_ret.
  - intros [|]; [apply preserves_ret|].
    apply preserves_bind; [apply preserves_modify, (by_clear_cached _ _ HI)|intros _].
    apply preserves_bind; [apply preserves_modify; intros st; apply (by_emit _ _ HI)|intros _].
    apply (by_pre_connect _ _ HI).
Qed.

Lemma respected_onAccountsChanged env a :
  allowed CallSignerGetAddress = true →
  allowed CallSignerGetChainId = true →
  allowed (CallStorageRemove disconnected_key) = true →
  preserves I (onAccountsChanged env a).
Proof.
  intros Ha Hc Hr st Hst. unfold onAccountsChanged.
  destruct (length a =? 0)%nat.
  { by apply (preserves_floating _ _ (respected_onDisconnect env None Ha)). }
  destruct (0 <? connectSubscribers st)%nat; revert st Hst.
  - apply preserves_bind; [by apply respected_getChainId|intros c].
    apply preserves_bind; [by apply preserves_floating, respected_onConnect|intros _].
    by apply respected_storage_removeItem.
  - apply preserves_bind; [apply preserves_map_getAddress|intros c].
    apply preserves_modify. intros st. apply (by_emit _ _ HI).
Qed.

Lemma respected_onChainChanged chain : preserves I (onChainChanged chain).
Proof. apply preserves_modify. intros st. apply (by_emit _ _ HI). Qed.

Lemma respected_setup : preserves I setup.
Proof.
  unfold setup.
  apply preserves_bind; [apply (by_getProvider _ _ HI)|intros p].
  destruct p; [apply (by_on_connect _ _ HI)|apply preserves_ret].
Qed.

Lemma respected_disconnect env :
  allowed (CallStorageSet disconnected_key true) = true →
  preserves I (disconnect env).
Proof.
  intros Hc. unfold disconnect.
  apply preserves_bind; [apply (by_getProvider _ _ HI)|intros p].
  apply preserves_bind; [apply (by_pre_connect _ _ HI)|intros _].
  by apply respected_storage_setItem.
Qed.

Lemma respected_isAuthorized env :
  allowed (CallStorageGet disconnected_key) = true →
  allowed CallSignerGetAddress = true →
  preserves I (isAuthorized env).
Proof.
  intros Hg Ha. unfold isAuthorized.
  apply preserves_try_catch; [|intros; apply preserves_ret].
  apply preserves_bind; [by apply respected_storage_getItem|intros v].
  destruct (truthy v); [apply preserves_ret|].
  apply preserves_bind; [by apply respected_getAccounts|].
  intros; apply preserves_ret.
Qed.

(** [connect] from the account query on, that is, once a provider is in
    the slot. *)
Lemma respected_connect_body env (chainId : option Z) (isReconnecting : bool) :
  allowed CallSignerGetAddress = true →
  allowed CallSignerGetChainId = true →
  (∀ method z, allowed (CallProviderSend method z) = true) →
  allowed (CallStorageRemove disconnected_key) = true →
  preserves I
    (let* accounts :=
       (if isReconnecting then try_catch (getAccounts env) (fun _ => ret [])
        else ret ([] : list string)) in
     try_catch
       (let* accounts :=
          (if (length accounts =? 0)%nat then
             let* a := external CallSignerGetAddress (signer_getAddress env) in
             ret [a]
           else ret accounts) in
        attach_post_connect ;;
        let* currentChainId := getChainId env in
        let* currentChainId :=
          match chainId with
          | Some requested =>
              if negb (requested =? 0) && negb (currentChainId =? requested) then
                let* chain :=
                  try_catch (switchChain env requested)
                    (fun error =>
                       if has_code error UserRejectedRequestError_code
                       then throw error
                       else ret (mkChain currentChainId)) in
                ret (chain_id chain)
              else ret currentChainId
          | None => ret currentChainId
          end in
        storage_removeItem env disconnected_key ;;
        ret (mkConnectResult accounts currentChainId))
       (fun error =>
          if has_code error UserRejectedRequestError_code
          then throw (UserRejectedRequestError error)
          else if has_code error ResourceUnavailableRpcError_code
          then throw (ResourceUnavailableRpcError error)
          else throw error)).
Proof.
  intros Ha Hc Hs Hr.
  apply preserves_bind.
  { destruct isReconnecting; [|apply preserves_ret].
    apply preserves_try_catch; [by apply respected_getAccounts|].
    intros; apply preserves_ret. }
  intros accounts. apply preserves_try_catch.
  2:{ intros e. repeat destruct (has_code _ _); apply preserves_throw. }
  apply preserves_bind.
  { destruct (_ =? _)%nat; [|apply preserves_ret].
    apply preserves_bind; [by apply respected_external|intros; apply preserves_ret]. }
  intros accounts'.
  apply preserves_bind; [apply (by_post_connect _ _ HI)|intros _].
  apply preserves_bind; [by apply respected_getChainId|intros cur].
  apply preserves_bind.
  - destruct chainId as [requested|]; [|apply preserves_ret].
    destruct (_ && _); [|apply preserves_ret].
    apply preserves_bind; [|intros; apply preserves_ret].
    apply preserves_try_catch; [by apply respected_switchChain|].
    intros e. destruct (has_code _ _); [apply preserves_throw|apply preserves_ret].
  - intros cur'. apply preserves_bind; [|intros; apply preserves_ret].
    by apply respected_storage_removeItem.
Qed.

End Respected.

Lemma respected_construct_provider allowed I env :
  respected allowed I →
  (∀ st, provider st = None → I st → I (set_provider (Some new_Web3Provider) st)) →
  allowed CallImportSdk = true →
  (∀ a u, allowed (CallNewSdk a u) = true) →
  allowed CallSdkEthereum = true →
  ∀ st, provider st = None → I st → I (construct_provider env st).1.
Proof.
  intros HI Hnew Hi Hn He st Hp Hst.
  unfold construct_provider, bind, external, modify. cbn.
  destruct (configured_appId env) as [a|]; cbn; [|by apply (by_log _ _ HI)].
  destruct (sdk_ethereum env _); cbn; [apply Hnew; [done|] | |];
    by repeat apply (by_log _ _ HI).
Qed.

Lemma respected_connect allowed I env chainId isReconnecting :
  respected allowed I →
  (∀ st, provider st = None → I st → I (set_provider (Some new_Web3Provider) st)) →
  (∀ c, footprint (MConnect chainId isReconnecting) c = true → allowed c = true) →
  preserves I (connect env chainId isReconnecting).
Proof.
  intros HI Hnew Hc. unfold connect. apply preserves_bind.
  - intros st Hst. destruct (provider st) eqn:Hp; [done|].
    by apply (respected_construct_provider allowed I env HI Hnew); auto.
  - intros _. by apply (respected_connect_body allowed I HI); auto.
Qed.

(** Every method preserves an invariant that its steps preserve and that
    tolerates the calls of the method's footprint. *)
Lemma respected_run allowed I env m :
  respected allowed I →
  (∀ st, provider st = None → I st → I (set_provider (Some new_Web3Provider) st)) →
  (∀ c, footprint m c = true → allowed c = true) →
  ∀ st, I st → I (run env m st).
Proof.
  intros HI Hnew Hc st Hst. destruct m; simpl.
  - by apply (respected_setup allowed I HI).
  - by apply (respected_connect allowed I env _ _ HI Hnew Hc).
  - by apply (respected_disconnect allowed I HI); auto.
  - by apply (respected_getAccounts allowed I HI); auto.
  - by apply (respected_getChainId allowed I HI); auto.
  - by apply (by_getProvider _ _ HI).
  - by apply (respected_isAuthorized allowed I HI); auto.
  - by apply (respected_switchChain allowed I HI); auto.
  - by apply (respected_onAccountsChanged allowed I HI); auto.
  - by apply (respected_onChainChanged allowed I HI).
  - by apply (respected_onConnect allowed I HI); auto.
  - by apply (respected_onDisconnect allowed I HI); auto.
Qed.

Lemma respected_runs allowed I env ms :
  respected allowed I →
  (∀ st, provider st = None → I st → I (set_provider (Some new_Web3Provider) st)) →
  (∀ m c, m ∈ ms → footprint m c = true → allowed c = true) →
  ∀ st, I st → I (runs env ms st).
Proof.
  intros HI Hnew. unfold runs.
  induction ms as [|m ms IH]; intros Hc st Hst; simpl; [done|].
  apply IH; [intros m' c Hin; apply Hc; by right|].
  apply (respected_run allowed I env m HI Hnew); [|done].
  intros c. apply Hc. by left.
Qed.

(** *** Invariants that do not look at the provider's registry *)

Lemma preserves_on_fields I ev listener :
  (∀ v st, I st → I (set_provider v st)) →
  (∀ n st, I st → I (set_nextBound n st)) →
  (∃ f, listener = bind_this f) ∨ (∃ l, listener = ret l) →
  preserves I (on ev listener).
Proof.
  intros Hp Hn Hl st Hst. unfold on. destruct (provider st); [|done].
  destruct Hl as [[f ->]|[l ->]]; cbn; auto.
Qed.

Lemma preserves_removeListener_fields I ev listener :
  (∀ v st, I st → I (set_provider v st)) →
  (∀ n st, I st → I (set_nextBound n st)) →
  (∃ f, listener = bind_this f) ∨ (∃ l, listener = ret l) →
  preserves I (removeListener ev listener).
Proof.
  intros Hp Hn Hl st Hst. unfold removeListener. destruct (provider st); [|done].
  destruct Hl as [[f ->]|[l ->]]; cbn; auto.
Qed.

Lemma respected_of_fields allowed I :
  preserves I getProvider →
  (∀ v st, I st → I (set_provider v st)) →
  (∀ n st, I st → I (set_nextBound n st)) →
  (∀ c st, allowed c = true → I st → I (log c st)) →
  (∀ e st, I st → I (emit e st)) →
  (∀ v st, I st → I (set_storage v st)) →
  (∀ v st, I st → I (set_localStorage v st)) →
  respected allowed I.
Proof.
  intros Hg Hp Hn Hl He Hs Hls. split; try done.
  - unfold attach_post_connect.
    apply preserves_bind; [apply preserves_removeListener_fields; eauto|intros _].
    repeat (apply preserves_bind; [apply preserves_on_fields; eauto|intros _]).
    apply preserves_on_fields; eauto.
  - unfold attach_pre_connect.
    repeat (apply preserves_bind; [apply preserves_removeListener_fields; eauto|intros _]).
    apply preserves_on_fields; eauto.
  - apply preserves_on_fields; eauto.
  - intros st. apply Hls.
Qed.

(** Invariants of the trace alone. *)
Lemma respected_trace allowed (P : list Call → Prop) :
  (∀ c t, allowed c = true ∨ c = CallInitProvider → P t → P (t ++ [c])) →
  respected allowed (λ s, P (trace s)).
Proof.
  intros HP. apply respected_of_fields; try done.
  - intros st Hst. destruct (provider st) as [p|] eqn:Hp.
    + by rewrite (getProvider_cached st p).
    + rewrite getProvider_absent by done. destruct (providerPromise st); [done|].
      cbn. apply HP; auto.
  - intros c st Hc. apply HP; auto.
Qed.

Lemma respected_and allowed I J :
  respected allowed I → respected allowed J →
  respected allowed (λ s, I s ∧ J s).
Proof.
  intros HI HJ. split.
  - intros st [??]; split; [by apply (by_getProvider _ _ HI)|by apply (by_getProvider _ _ HJ)].
  - intros st [??]; split; [by apply (by_post_connect _ _ HI)|by apply (by_post_connect _ _ HJ)].
  - intros st [??]; split; [by apply (by_pre_connect _ _ HI)|by apply (by_pre_connect _ _ HJ)].
  - intros st [??]; split; [by apply (by_on_connect _ _ HI)|by apply (by_on_connect _ _ HJ)].
  - intros c st Hc [??]; split; [by apply (by_log _ _ HI)|by apply (by_log _ _ HJ)].
  - intros e st [??]; split; [by apply (by_emit _ _ HI)|by apply (by_emit _ _ HJ)].
  - intros v st [??]; split; [by apply (by_storage _ _ HI)|by apply (by_storage _ _ HJ)].
  - intros st [??]; split; [by apply (by_clear_cached _ _ HI)|by apply (by_clear_cached _ _ HJ)].
Qed.

(** With a provider in the slot no method reaches the SDK construction. *)
Lemma respected_run_cached allowed I env m :
  respected allowed I →
  (∀ st, I st → is_Some (provider st)) →
  (∀ c, footprint m c = true → is_sdk_construction c = false → allowed c = true) →
  ∀ st, I st → I (run env m st).
Proof.
  intros HI Hsome Hc st Hst.
  destruct (is_connect m) eqn:Hm.
  - destruct m as [|chainId isReconnecting| | | | | | | | | |]; try done. simpl.
    unfold connect, bind at 1.
    destruct (Hsome st Hst) as [p Hp]. rewrite Hp. cbn.
    apply (respected_connect_body allowed I HI); auto.
  - apply (respected_run allowed I env m HI); [| |done].
    + intros st' Hnone Hst'. destruct (Hsome st' Hst') as [p Hp]. congruence.
    + intros c Hf. apply Hc; [done|]. by destruct m, c.
Qed.

(** ** What the methods never call *)

Lemma filter_snoc_false (f : Call → bool) t c :
  f c = false → filter f (t ++ [c]) = filter f t.
Proof.
  intros Hc. rewrite filter_app, filter_cons_False, filter_nil, app_nil_r; [done|].
  rewrite Hc. exact id.
Qed.

Lemma respected_filter (f : Call → bool) t0 :
  f CallInitProvider = false →
  respected (λ c, negb (f c)) (λ s, filter f (trace s) = t0).
Proof.
  intros Hinit. apply (respected_trace _ (λ t, filter f t = t0)).
  intros c t Hc <-. apply filter_snoc_false.
  destruct Hc as [Hc| ->]; [by apply negb_true_iff|done].
Qed.

(** X1: only [connect] loads the SDK module, constructs the SDK client or
    asks it for its provider; no other method adds such a call to the
    trace, whatever its outcome. *)
Theorem sdk_constructed_only_by_connect env m st :
  is_connect m = false →
  filter is_sdk_construction (trace (run env m st))
  = filter is_sdk_construction (trace st).
Proof.
  intros Hm.
  apply (respected_run (λ c, negb (is_sdk_construction c))
           (λ s, filter is_sdk_construction (trace s)
                 = filter is_sdk_construction (trace st)) env m);
    [by apply respected_filter | done | | done].
  intros c Hc. by destruct m, c.
Qed.

Lemma sdk_constructed_only_by_connect_witness :
  filter is_sdk_construction (trace (run demo_env MIsAuthorized connected))
  = [CallImportSdk; CallNewSdk "app-id" None; CallSdkEthereum].
Proof.
  rewrite (sdk_constructed_only_by_connect demo_env MIsAuthorized connected);
    [vm_compute; reflexivity | reflexivity].
Defined.



(** X3: only [disconnect] calls [config.storage.setItem]. *)
Theorem storage_written_only_by_disconnect env m st :
  is_disconnect m = false →
  filter is_storage_write (trace (run env m st))
  = filter is_storage_write (trace st).
Proof.
  intros Hm.
  apply (respected_run (λ c, negb (is_storage_write c))
           (λ s, filter is_storage_write (trace s)
                 = filter is_storage_write (trace st)) env m);
    [by apply respected_filter | done | | done].
  intros c Hc. by destruct m, c.
Qed.

Lemma storage_written_only_by_disconnect_witness :
  filter is_storage_write (trace (run demo_env (MConnect None false) disconnected))
  = [CallStorageSet disconnected_key true].
Proof.
  rewrite (storage_written_only_by_disconnect demo_env
             (MConnect None false) disconnected);
    [vm_compute; reflexivity | reflexivity].
Defined.

(** ** The provider, once cached *)

Lemma on_bound_cached ev f st p :
  provider st = Some p →
  on ev (bind_this f) st
  = (set_provider (Some (provider_on ev (f (nextBound st)) p))
       (set_nextBound (S (nextBound st)) st), Resolved tt).
Proof.
  intros Hp. unfold on. rewrite Hp.
  unfold bind, bind_this, ret, modify. cbn. by rewrite ?Hp.
Qed.

Lemma on_stable_cached ev l st p :
  provider st = Some p →
  on ev (ret l) st = (set_provider (Some (provider_on ev l p)) st, Resolved tt).
Proof.
  intros Hp. unfold on. rewrite Hp.
  unfold bind, bind_this, ret, modify. cbn. by rewrite ?Hp.
Qed.

Lemma removeListener_bound_cached ev f st p :
  provider st = Some p →
  removeListener ev (bind_this f) st
  = (set_provider (Some (provider_removeListener ev (f (nextBound st)) p))
       (set_nextBound (S (nextBound st)) st), Resolved tt).
Proof.
  intros Hp. unfold removeListener. rewrite Hp.
  unfold bind, bind_this, ret, modify. cbn. by rewrite ?Hp.
Qed.

Lemma removeListener_stable_cached ev l st p :
  provider st = Some p →
  removeListener ev (ret l) st
  = (set_provider (Some (provider_removeListener ev l p)) st, Resolved tt).
Proof.
  intros Hp. unfold removeListener. rewrite Hp.
  unfold bind, bind_this, ret, modify. cbn. by rewrite ?Hp.
Qed.

(** An invariant that the four ways of touching the registry preserve is
    preserved by the two listener swaps. *)
Lemma preserves_swaps I :
  (∀ ev f, f = BoundOnConnect ∨ f = BoundOnAccountsChanged ∨ f = BoundOnDisconnect →
           preserves I (on ev (bind_this f))) →
  (∀ ev, preserves I (on ev (ret OnChainChanged))) →
  (∀ ev f, f = BoundOnConnect ∨ f = BoundOnAccountsChanged ∨ f = BoundOnDisconnect →
           preserves I (removeListener ev (bind_this f))) →
  preserves I (removeListener EvChainChanged (ret OnChainChanged)) →
  preserves I attach_post_connect ∧ preserves I attach_pre_connect.
Proof.
  intros Hon Hons Hrm Hrms. split.
  - unfold attach_post_connect.
    apply preserves_bind; [apply Hrm; auto|intros _].
    apply preserves_bind; [apply Hon; auto|intros _].
    apply preserves_bind; [apply Hons|intros _].
    apply Hon; auto.
  - unfold attach_pre_connect.
    apply preserves_bind; [apply Hrm; auto|intros _].
    apply preserves_bind; [apply Hrms|intros _].
    apply preserves_bind; [apply Hrm; auto|intros _].
    apply Hon; auto.
Qed.

Lemma respected_cached allowed : respected allowed (λ s, is_Some (provider s)).
Proof.
  destruct (preserves_swaps (λ s, is_Some (provider s))) as [Hpost Hpre].
  - intros ev f _ st [p Hp]. by rewrite (on_bound_cached ev f st p).
  - intros ev st [p Hp]. by rewrite (on_stable_cached ev _ st p).
  - intros ev f _ st [p Hp]. by rewrite (removeListener_bound_cached ev f st p).
  - intros st [p Hp]. by rewrite (removeListener_stable_cached _ _ st p).
  - split; try done.
    + intros st [p Hp]. rewrite (getProvider_cached st p Hp). by exists p.
    + intros st [p Hp]. by rewrite (on_bound_cached _ _ st p).
Qed.

(** X4: once a provider is cached it stays cached through every method,
    and no method, [connect] included, loads or constructs the SDK again. *)
Theorem cached_provider_is_kept env m st :
  is_Some (provider st) →
  is_Some (provider (run env m st))
  ∧ filter is_sdk_construction (trace (run env m st))
    = filter is_sdk_construction (trace st).
Proof.
  intros Hp.
  apply (respected_run_cached (λ c, negb (is_sdk_construction c))
           (λ s, is_Some (provider s)
                 ∧ filter is_sdk_construction (trace s)
                   = filter is_sdk_construction (trace st)) env m).
  - apply respected_and; [apply respected_cached | by apply respected_filter].
  - by intros s [? _].
  - intros c _ Hc. by rewrite Hc.
  - done.
Qed.

Lemma cached_provider_is_kept_witness :
  is_Some (provider (run demo_env (MConnect (Some 137) true) disconnected))
  ∧ filter is_sdk_construction
      (trace (run demo_env (MConnect (Some 137) true) disconnected))
    = [CallImportSdk; CallNewSdk "app-id" None; CallSdkEthereum].
Proof.
  destruct (cached_provider_is_kept demo_env (MConnect (Some 137) true) disconnected)
    as [H1 H2]; [vm_compute; eauto|].
  split; [exact H1|]. rewrite H2. vm_compute; reflexivity.
Defined.

(** ** Listeners registered through [bind] stay *)

Lemma allocated_mono st st' l :
  (nextBound st ≤ nextBound st')%nat → allocated st l → allocated st' l.
Proof. destruct l; simpl; lia. Qed.

Lemma elem_of_remove_first_other x ev l es :
  x ∈ es → x ≠ (ev, l) → x ∈ remove_first ev l es.
Proof.
  intros Hin Hne. induction es as [|[ev' l'] es IH]; simpl; [done|].
  apply elem_of_cons in Hin as [->|Hin].
  - rewrite bool_decide_eq_false_2; [by left|]. intros [-> ->]. done.
  - case_bool_decide as Heq; [|right; auto].
    destruct Heq as [-> ->]. done.
Qed.

Lemma tracked_registry E st st' p p' :
  tracked E st → provider st = Some p → provider st' = Some p' →
  (nextBound st ≤ nextBound st')%nat →
  (∀ ev l, (ev, l) ∈ events p' → (ev, l) ∈ events p ∨ allocated st' l) →
  (∀ x, x ∈ E → x ∈ events p → x ∈ events p') →
  tracked E st'.
Proof.
  intros [Hal HE] Hp Hp' Hn Hin Hkeep. split.
  - intros q ev l Hq Hl. rewrite Hp' in Hq. simplify_eq.
    destruct (Hin ev l Hl) as [Hold|Hnew]; [|done].
    eapply allocated_mono; [exact Hn|]. by eapply Hal.
  - intros x Hx. destruct (HE x Hx) as (q & Hq & Hxq).
    rewrite Hp in Hq. simplify_eq. eauto.
Qed.

Lemma respected_tracked allowed E :
  Forall (λ x, x.2 ≠ OnChainChanged) E → respected allowed (tracked E).
Proof.
  intros Hbound.
  assert (∀ f n st, f = BoundOnConnect ∨ f = BoundOnAccountsChanged
                    ∨ f = BoundOnDisconnect →
                    (allocated st (f n) ↔ (n < nextBound st)%nat)) as Hf.
  { intros f n st [->|[->| ->]]; done. }
  assert (∀ ev f, f = BoundOnConnect ∨ f = BoundOnAccountsChanged ∨ f = BoundOnDisconnect →
            preserves (tracked E) (on ev (bind_this f))) as Hon.
  { intros ev f Hb st Hst. destruct (provider st) as [p|] eqn:Hp;
      [|by unfold on; rewrite Hp].
    rewrite (on_bound_cached ev f st p Hp). cbn [fst].
    eapply (tracked_registry E st _ p); [done..|reflexivity|cbn; lia| |].
    + intros ev' l [Hin|Hin%list_elem_of_singleton]%elem_of_app; [by left|].
      right. simplify_eq. apply Hf; [done|]. cbn. lia.
    + intros x _ Hx. apply elem_of_app. by left. }
  assert (∀ ev, preserves (tracked E) (on ev (ret OnChainChanged))) as Hons.
  { intros ev st Hst. destruct (provider st) as [p|] eqn:Hp;
      [|by unfold on; rewrite Hp].
    rewrite (on_stable_cached ev _ st p Hp). cbn [fst].
    eapply (tracked_registry E st _ p); [done..|reflexivity|cbn; lia| |].
    + intros ev' l [Hin|Hin%list_elem_of_singleton]%elem_of_app; [by left|].
      right. by simplify_eq.
    + intros x _ Hx. apply elem_of_app. by left. }
  assert (∀ ev f, f = BoundOnConnect ∨ f = BoundOnAccountsChanged ∨ f = BoundOnDisconnect →
            preserves (tracked E) (removeListener ev (bind_this f))) as Hrm.
  { intros ev f Hb st Hst. destruct (provider st) as [p|] eqn:Hp;
      [|by unfold removeListener; rewrite Hp].
    rewrite (removeListener_bound_cached ev f st p Hp). cbn [fst].
    eapply (tracked_registry E st _ p); [done..|reflexivity|cbn; lia| |].
    + intros ev' l Hin%elem_of_remove_first. by left.
    + intros x _ Hx. cbn. rewrite remove_first_unregistered; [done|].
      intros Hin. destruct Hst as [Hal _]. specialize (Hal p _ _ Hp Hin).
      apply Hf in Hal; [lia|done]. }
  assert (preserves (tracked E) (removeListener EvChainChanged (ret OnChainChanged))) as Hrms.
  { intros st Hst. destruct (provider st) as [p|] eqn:Hp;
      [|by unfold removeListener; rewrite Hp].
    rewrite (removeListener_stable_cached _ _ st p Hp). cbn [fst].
    eapply (tracked_registry E st _ p); [done..|reflexivity|cbn; lia| |].
    + intros ev' l Hin%elem_of_remove_first. by left.
    + intros x Hx Hin. cbn. apply elem_of_remove_first_other; [done|].
      intros ->. by apply (proj1 (Forall_forall _ _) Hbound _ Hx). }
  destruct (preserves_swaps (tracked E) Hon Hons Hrm Hrms) as [Hpost Hpre].
  split; try done.
  - intros st Hst. destruct (provider st) as [p|] eqn:Hp.
    + by rewrite (getProvider_cached st p).
    + rewrite getProvider_absent by done. by destruct (providerPromise st).
  - apply Hon; auto.
Qed.

Lemma tracked_new_provider E st :
  provider st = None → tracked E st →
  tracked E (set_provider (Some new_Web3Provider) st).
Proof.
  intros Hp [Hal HE]. split.
  - intros p ev l Hq Hin. cbn in Hq. simplify_eq. by apply elem_of_nil in Hin.
  - intros x Hx. destruct (HE x Hx) as (p & Hq & _). congruence.
Qed.

Lemma runs_app env ms1 ms2 st :
  runs env (ms1 ++ ms2) st = runs env ms2 (runs env ms1 st).
Proof. apply foldl_app. Qed.

Lemma registry_allocated_reachable env sto ls subs ms :
  registry_allocated (runs env ms (init sto ls subs)).
Proof.
  apply (respected_runs (λ _, true) (tracked []) env ms).
  - apply respected_tracked. constructor.
  - apply tracked_new_provider.
  - done.
  - split; [done|]. intros x Hx. by apply elem_of_nil in Hx.
Qed.

(** X5: in every state a connector can reach, a listener registered with
    a function made by [bind] is never removed again: whatever methods are
    called afterwards, its entry is still in the provider's registry. *)
Theorem bound_listener_never_removed env sto ls subs ms1 ms2 p ev l :
  provider (runs env ms1 (init sto ls subs)) = Some p →
  (ev, l) ∈ events p →
  l ≠ OnChainChanged →
  ∃ p', provider (runs env (ms1 ++ ms2) (init sto ls subs)) = Some p'
        ∧ (ev, l) ∈ events p'.
Proof.
  intros Hp Hin Hl. rewrite runs_app.
  assert (tracked [(ev, l)] (runs env ms2 (runs env ms1 (init sto ls subs))))
    as [_ HE].
  { apply (respected_runs (λ _, true) (tracked [(ev, l)]) env ms2).
    - apply respected_tracked. by repeat constructor.
    - apply tracked_new_provider.
    - done.
    - split; [apply registry_allocated_reachable|].
      intros x ->%list_elem_of_singleton. eauto. }
  apply HE. by left.
Qed.

Lemma bound_listener_never_removed_witness :
  ∃ p', provider (runs demo_env
                    ([MConnect None false]
                     ++ [MDisconnect; MOnDisconnect None; MConnect None true;
                         MOnAccountsChanged []])
                    fresh) = Some p'
        ∧ (EvAccountsChanged, BoundOnAccountsChanged 1) ∈ events p'.
Proof.
  apply (bound_listener_never_removed demo_env (Some ∅) None 0%nat
           [MConnect None false] _
           (mkProvider [(EvAccountsChanged, BoundOnAccountsChanged 1);
                        (EvChainChanged, OnChainChanged);
                        (EvDisconnect, BoundOnDisconnect 2)])).
  - vm_compute; reflexivity.
  - simpl. by left.
  - discriminate.
Defined.

(** ** One creation per connector *)

Lemma creation_attempts_snoc t c :
  creation_attempts (t ++ [c])
  = (creation_attempts t + if bool_decide (c = CallInitProvider) then 1 else 0)%nat.
Proof.
  unfold creation_attempts. rewrite filter_app, length_app.
  case_bool_decide.
  - by rewrite filter_cons_True.
  - by rewrite filter_cons_False.
Qed.

Lemma respected_created_once :
  respected (λ c, negb (bool_decide (c = CallInitProvider))) created_once.
Proof.
  apply respected_of_fields; try done.
  - intros st [H0 H1]. destruct (provider st) as [p|] eqn:Hp.
    + by rewrite (getProvider_cached st p).
    + rewrite getProvider_absent by done.
      destruct (providerPromise st) eqn:Hq;
        [split; cbn; [by rewrite Hq|done]|].
      split; [done|]. cbn [fst trace set_providerPromise log].
      rewrite creation_attempts_snoc, H0 by done. done.
  - intros c st Hc [H0 H1]. apply negb_true_iff in Hc.
    unfold created_once. cbn [trace log providerPromise].
    rewrite creation_attempts_snoc, Hc, Nat.add_0_r. done.
Qed.

(** X6: over the whole life of a connector, whatever methods are called
    and in whatever order, [initProvider] runs at most once. *)
Theorem initProvider_at_most_once env sto ls subs ms :
  (creation_attempts (trace (runs env ms (init sto ls subs))) ≤ 1)%nat.
Proof.
  apply (respected_runs _ created_once env ms respected_created_once).
  - done.
  - intros m c _ Hc. by destruct m, c.
  - split; cbn; [done|lia].
Qed.

(** ** Queries *)

Lemma getAccounts_cached env st p :
  provider st = Some p →
  getAccounts env st =
  (log CallSignerGetAddress st,
   match signer_getAddress env (length (trace st)) with
   | Resolved a =>
       match viem_getAddress env a with
       | Some a' => Resolved [a']
       | None => Rejected InvalidAddressError
       end
   | Rejected e => Rejected e
   | Pending => Pending
   end).
Proof.
  intros Hp. unfold getAccounts. unfold bind at 1.
  rewrite (getProvider_cached st p Hp). unfold bind, external. cbn.
  destruct (signer_getAddress env _) as [a|e|]; try done.
  by destruct (viem_getAddress env a).
Qed.

Lemma getChainId_cached env st p :
  provider st = Some p →
  getChainId env st =
  (log CallSignerGetChainId st,
   signer_getChainId env (length (trace st))).
Proof.
  intros Hp. unfold getChainId. unfold bind at 1.
  rewrite (getProvider_cached st p Hp). unfold bind, external. cbn.
  by destruct (signer_getChainId env _).
Qed.

Lemma getAccounts_resolved_inv env st st' accounts :
  getAccounts env st = (st', Resolved accounts) →
  ∃ a a', signer_getAddress env (length (trace st)) = Resolved a
          ∧ viem_getAddress env a = Some a'
          ∧ accounts = [a']
          ∧ is_Some (provider st)
          ∧ st' = log CallSignerGetAddress st.
Proof.
  intros H. destruct (provider st) as [p|] eqn:Hp.
  - rewrite (getAccounts_cached env st p Hp) in H.
    destruct (signer_getAddress env _) as [a|e|]; try by simplify_eq.
    destruct (viem_getAddress env a) as [a'|] eqn:Ha; simplify_eq.
    exists a, a'. eauto 10.
  - pose proof (getAccounts_absent env st Hp) as Hr. rewrite H in Hr. done.
Qed.

(** X7: when [getAccounts] resolves, a provider is cached and the result
    is exactly one address: the checksummed form of the address the signer
    gave.  The only trace it leaves is that signer call. *)
Theorem getAccounts_resolved env st st' accounts :
  getAccounts env st = (st', Resolved accounts) →
  ∃ a a', signer_getAddress env (length (trace st)) = Resolved a
          ∧ viem_getAddress env a = Some a'
          ∧ accounts = [a']
          ∧ is_Some (provider st)
          ∧ st' = log CallSignerGetAddress st.
Proof. apply getAccounts_resolved_inv. Qed.

Lemma getAccounts_resolved_witness :
  ∃ a a', signer_getAddress demo_env (length (trace connected)) = Resolved a
          ∧ viem_getAddress demo_env a = Some a'
          ∧ ["0xa11ce"] = [a']
          ∧ is_Some (provider connected)
          ∧ (getAccounts demo_env connected).1 = log CallSignerGetAddress connected.
Proof.
  apply (getAccounts_resolved demo_env connected). vm_compute; reflexivity.
Defined.

(** The methods that only ask. *)
Lemma effects_plumbing_free v : plumbing_free (λ s, effects s = v).
Proof. by split. Qed.

(** X8: [getProvider], [getAccounts], [getChainId], [isAuthorized] and
    [switchChain] change nothing the connector owns, whatever their
    outcome: the provider's listeners, the events emitted to the host, the
    host storage and the cached values are as before. *)
Theorem queries_leave_no_effect env st :
  effects (run env MGetProvider st) = effects st
  ∧ effects (run env MGetAccounts st) = effects st
  ∧ effects (run env MGetChainId st) = effects st
  ∧ effects (run env MIsAuthorized st) = effects st
  ∧ ∀ chainId, effects (run env (MSwitchChain chainId) st) = effects st.
Proof.
  pose proof (effects_plumbing_free (effects st)) as HI.
  repeat split; simpl.
  - by apply (preserves_getProvider _ HI).
  - by apply (preserves_getAccounts _ env HI).
  - by apply (preserves_getChainId _ env HI).
  - assert (preserves (λ s, effects s = effects st) (isAuthorized env)) as H;
      [|by apply H].
    unfold isAuthorized. apply preserves_try_catch; [|intros; apply preserves_ret].
    apply preserves_bind; [by apply preserves_storage_getItem|intros v].
    destruct (truthy v); [apply preserves_ret|].
    apply preserves_bind; [by apply preserves_getAccounts|intros; apply preserves_ret].
  - intros chainId. by apply (preserves_switchChain _ env chainId HI).
Qed.

(** ** switchChain *)

Lemma find_chain_Some env chainId chain :
  find_chain env chainId = Some chain →
  chain ∈ chains env ∧ chain_id chain = chainId.
Proof.
  unfold find_chain. intros [Hin Heq]%find_some. split.
  - by apply list_elem_of_In.
  - by apply Z.eqb_eq.
Qed.

Lemma switchChain_cached env chainId st p chain :
  provider st = Some p →
  find_chain env chainId = Some chain →
  (chainId <? 0) || (MAX_SAFE_INTEGER <? chainId) = false →
  switchChain env chainId st =
  (log (CallProviderSend "wallet_switchEthereumChain" chainId) st,
   match provider_send env (length (trace st)) with
   | Resolved _ =>
       if change_confirms env (length (trace st)) then Resolved chain
       else Pending
   | Rejected e =>
       Rejected (if has_code e UserRejectedRequestError_code
                 then UserRejectedRequestError e else SwitchChainError e)
   | Pending => Pending
   end).
Proof.
  intros Hp Hf Hr. unfold switchChain. unfold bind at 1.
  rewrite (getProvider_cached st p Hp), Hf, Hr.
  unfold try_catch, bind, send_and_await_change.
  destruct (provider_send env _) as [[]|e|]; try done.
  - by destruct (change_confirms env _).
  - by destruct (has_code e _).
Qed.

(** X9: [switchChain] never rejects with a raw error: every rejection is
    a [UserRejectedRequestError] wrapping an error of code 4001, or a
    [SwitchChainError]. *)
Theorem switchChain_rejections env chainId st e :
  (switchChain env chainId st).2 = Rejected e →
  (∃ e0, e = UserRejectedRequestError e0
         ∧ error_code e0 = Some UserRejectedRequestError_code)
  ∨ (∃ e0, e = SwitchChainError e0).
Proof.
  assert (∀ e0 : Error, has_code e0 UserRejectedRequestError_code = true →
            error_code e0 = Some UserRejectedRequestError_code) as Hcode.
  { intros e0. unfold has_code. destruct (error_code e0); [|done].
    by intros ->%Z.eqb_eq. }
  destruct (find_chain env chainId) as [chain|] eqn:Hf; cycle 1.
  { rewrite switchChain_unconfigured by done. intros [= <-]. eauto. }
  destruct (provider st) as [p|] eqn:Hp; cycle 1.
  { unfold switchChain, bind. rewrite getProvider_absent, Hf by done. cbn.
    intros [= <-]. eauto. }
  destruct ((chainId <? 0) || (MAX_SAFE_INTEGER <? chainId)) eqn:Hr.
  { unfold switchChain, bind. rewrite (getProvider_cached st p Hp), Hf. cbn.
    rewrite Hr. cbn. intros [= <-]. eauto. }
  rewrite (switchChain_cached env chainId st p chain Hp Hf Hr). cbn.
  destruct (provider_send env _) as [[]|e0|]; try done.
  - by destruct (change_confirms env _).
  - destruct (has_code e0 _) eqn:Hc; intros [= <-]; eauto.
Qed.

Lemma switchChain_rejections_witness :
  (∃ e0, (switchChain switch_declining_env 137 connected_declining).2
         = Rejected (UserRejectedRequestError e0)
         ∧ error_code e0 = Some UserRejectedRequestError_code)
  ∨ (∃ e0, (switchChain switch_declining_env 137 connected_declining).2
           = Rejected (SwitchChainError e0)).
Proof.
  destruct (switchChain_rejections switch_declining_env 137 connected_declining
              (UserRejectedRequestError
                 (ProviderError (Some UserRejectedRequestError_code))))
    as [(e0 & He & Hc)|(e0 & He)]; [vm_compute; reflexivity | | discriminate He].
  left. exists e0. split; [|exact Hc]. rewrite <- He. vm_compute; reflexivity.
Defined.

Lemma switchChain_resolved_inv env chainId st st' chain :
  switchChain env chainId st = (st', Resolved chain) →
  chain ∈ chains env
  ∧ chain_id chain = chainId
  ∧ is_Some (provider st)
  ∧ st' = log (CallProviderSend "wallet_switchEthereumChain" chainId) st
  ∧ provider_send env (length (trace st)) = Resolved tt
  ∧ change_confirms env (length (trace st)) = true.
Proof.
  intros H.
  destruct (find_chain env chainId) as [chain'|] eqn:Hf; cycle 1.
  { rewrite switchChain_unconfigured in H by done. simplify_eq. }
  destruct (provider st) as [p|] eqn:Hp; cycle 1.
  { unfold switchChain, bind in H. rewrite getProvider_absent, Hf in H by done.
    cbn in H. simplify_eq. }
  destruct ((chainId <? 0) || (MAX_SAFE_INTEGER <? chainId)) eqn:Hr.
  { unfold switchChain, bind in H. rewrite (getProvider_cached st p Hp), Hf in H.
    cbn in H. rewrite Hr in H. cbn in H. simplify_eq. }
  rewrite (switchChain_cached env chainId st p chain' Hp Hf Hr) in H.
  destruct (provider_send env _) as [[]|e0|] eqn:Hs; try by simplify_eq.
  destruct (change_confirms env _) eqn:Hc; simplify_eq.
  destruct (find_chain_Some env _ _ Hf) as [Hin Hid]. eauto 10.
Qed.

(** X10: when [switchChain] resolves, a provider is cached, the chain it
    returns is one of [config.chains] with the requested id, exactly one
    request was sent and answered, and the awaited change event carried the
    requested chain id. *)
Theorem switchChain_resolved env chainId st st' chain :
  switchChain env chainId st = (st', Resolved chain) →
  chain ∈ chains env
  ∧ chain_id chain = chainId
  ∧ is_Some (provider st)
  ∧ st' = log (CallProviderSend "wallet_switchEthereumChain" chainId) st
  ∧ provider_send env (length (trace st)) = Resolved tt
  ∧ change_confirms env (length (trace st)) = true.
Proof. apply switchChain_resolved_inv. Qed.

Lemma switchChain_resolved_witness :
  mkChain 137 ∈ chains two_chain_env
  ∧ chain_id (mkChain 137) = 137
  ∧ is_Some (provider connected_two)
  ∧ (switchChain two_chain_env 137 connected_two).1
    = log (CallProviderSend "wallet_switchEthereumChain" 137) connected_two
  ∧ provider_send two_chain_env (length (trace connected_two)) = Resolved tt
  ∧ change_confirms two_chain_env (length (trace connected_two)) = true.
Proof.
  apply (switchChain_resolved two_chain_env 137 connected_two).
  vm_compute; reflexivity.
Defined.

(** Whatever its outcome, [switchChain] sends at most the one request, and
    none for a chain that is not configured. *)
Lemma switchChain_requests env chainId st :
  rpc_requests (trace (switchChain env chainId st).1) = rpc_requests (trace st)
  ∨ (rpc_requests (trace (switchChain env chainId st).1)
     = rpc_requests (trace st)
       ++ [CallProviderSend "wallet_switchEthereumChain" chainId]
     ∧ chainId ∈ chain_id <$> chains env).
Proof.
  destruct (find_chain env chainId) as [chain|] eqn:Hf; cycle 1.
  { left. rewrite switchChain_unconfigured by done. apply rpc_requests_getProvider. }
  destruct (provider st) as [p|] eqn:Hp; cycle 1.
  { left. unfold switchChain, bind. rewrite getProvider_absent, Hf by done. cbn.
    destruct (providerPromise st); [done|]. cbn. unfold rpc_requests.
    by rewrite filter_snoc_false. }
  destruct ((chainId <? 0) || (MAX_SAFE_INTEGER <? chainId)) eqn:Hr.
  { left. unfold switchChain, bind. rewrite (getProvider_cached st p Hp), Hf. cbn.
    by rewrite Hr. }
  right. rewrite (switchChain_cached env chainId st p chain Hp Hf Hr). cbn.
  split.
  - unfold rpc_requests. by rewrite filter_app.
  - destruct (find_chain_Some env _ _ Hf) as [Hin <-].
    by apply list_elem_of_fmap_2.
Qed.

(** ** connect *)

Lemma preserves_swaps_fields I :
  (∀ v st, I st → I (set_provider v st)) →
  (∀ n st, I st → I (set_nextBound n st)) →
  preserves I attach_post_connect ∧ preserves I attach_pre_connect.
Proof.
  intros Hp Hn. apply preserves_swaps.
  - intros ev f _. apply preserves_on_fields; eauto.
  - intros ev. apply preserves_on_fields; eauto.
  - intros ev f _. apply preserves_removeListener_fields; eauto.
  - apply preserves_removeListener_fields; eauto.
Qed.

Lemma construct_provider_resolved_state env st st' u :
  construct_provider env st = (st', Resolved u) →
  ∃ a, configured_appId env = Some a
       ∧ st' = set_provider (Some new_Web3Provider)
                 (log CallSdkEthereum
                    (log (CallNewSdk a (user env)) (log CallImportSdk st))).
Proof.
  unfold construct_provider, bind, external, modify. cbn.
  destruct (configured_appId env) as [a|]; [|done]. cbn.
  destruct (sdk_ethereum env _); intros H; simplify_eq. eauto.
Qed.

Lemma storage_removeItem_resolved env key st st' u :
  storage_removeItem env key st = (st', Resolved u) →
  storage st' = delete key <$> storage st
  ∧ provider st' = provider st
  ∧ rpc_requests (trace st') = rpc_requests (trace st).
Proof.
  unfold storage_removeItem. destruct (storage st) as [m|] eqn:Hs.
  - unfold bind, external, modify. destruct (storage_backend env _); intros H;
      simplify_eq. cbn. repeat split.
    unfold rpc_requests. by rewrite filter_snoc_false.
  - intros H. by simplify_eq.
Qed.

(** The storage and the requests sent so far. *)
Lemma connect_prefix_frame env v t0 :
  let I := λ s, storage s = v ∧ rpc_requests (trace s) = t0 in
  preserves I getProvider
  ∧ preserves I (getAccounts env)
  ∧ preserves I (getChainId env)
  ∧ preserves I attach_post_connect
  ∧ (∀ c, is_send c = false → ∀ st, I st → I (log c st)).
Proof.
  intros I.
  assert (∀ c, is_send c = false → ∀ st, I st → I (log c st)) as Hlog.
  { intros c Hc st [Hs Ht]. split; [done|]. cbn. unfold rpc_requests.
    by rewrite filter_snoc_false. }
  assert (preserves I getProvider) as Hg.
  { intros st Hst. destruct (provider st) as [p|] eqn:Hp.
    - by rewrite (getProvider_cached st p).
    - rewrite getProvider_absent by done. destruct (providerPromise st); [done|].
      cbn. by apply (Hlog CallInitProvider). }
  split; [exact Hg|]. split; [|split; [|split; [|exact Hlog]]].
  - unfold getAccounts.
    apply preserves_bind; [done|intros p].
    apply preserves_bind; [apply preserves_getSigner|intros _].
    apply preserves_bind; [apply preserves_external; by apply Hlog|intros a].
    apply preserves_map_getAddress.
  - unfold getChainId.
    apply preserves_bind; [done|intros p].
    apply preserves_bind; [apply preserves_getSigner|intros _].
    apply preserves_bind; [apply preserves_external; by apply Hlog|intros a].
    apply preserves_ret.
  - by apply preserves_swaps_fields.
Qed.

(** What a resolved [connect] has done. *)
Lemma connect_resolved_inv env chainId isReconnecting st st' res :
  connect env chainId isReconnecting st = (st', Resolved res) →
  (∃ a, result_accounts res = [a])
  ∧ storage st' = delete disconnected_key <$> storage st
  ∧ ∃ n cur, signer_getChainId env n = Resolved cur
    ∧ ((result_chainId res = cur
        ∧ (chainId = None ∨ chainId = Some 0 ∨ chainId = Some cur)
        ∧ rpc_requests (trace st') = rpc_requests (trace st))
       ∨ ∃ requested,
           chainId = Some requested ∧ requested ≠ 0 ∧ requested ≠ cur
           ∧ ((result_chainId res = requested
               ∧ requested ∈ chain_id <$> chains env
               ∧ rpc_requests (trace st')
                 = rpc_requests (trace st)
                   ++ [CallProviderSend "wallet_switchEthereumChain" requested])
              ∨ (result_chainId res = cur
                 ∧ (rpc_requests (trace st') = rpc_requests (trace st)
                    ∨ (rpc_requests (trace st')
                       = rpc_requests (trace st)
                         ++ [CallProviderSend "wallet_switchEthereumChain" requested]
                       ∧ requested ∈ chain_id <$> chains env))))).
Proof.
  intros H. unfold connect in H.
  set (I := λ s, storage s = storage st
                 ∧ rpc_requests (trace s) = rpc_requests (trace st)).
  destruct (connect_prefix_frame env (storage st) (rpc_requests (trace st)))
    as (Hg & Hacc & Hcid & Hpost & Hlog). fold I in Hg, Hacc, Hcid, Hpost, Hlog.
  apply bind_resolved in H as (st1 & [] & H1 & H).
  assert (I st1 ∧ is_Some (provider st1)) as [HI1 Hp1].
  { destruct (provider st) as [p|] eqn:Hp.
    - unfold ret in H1. simplify_eq. split; [done|]. by rewrite Hp.
    - apply construct_provider_resolved_state in H1 as (a & _ & ->).
      split; [|done]. by repeat apply Hlog. }
  apply bind_resolved in H as (st2 & accounts & H2 & H).
  assert (I st2 ∧ provider st2 = provider st1
          ∧ (accounts = [] ∨ ∃ a, accounts = [a])) as (HI2 & Hp2 & Hacc2).
  { destruct isReconnecting; [|unfold ret in H2; simplify_eq; eauto].
    split; [|split].
    - eapply (preserves_run I); [|exact HI1|exact H2].
      apply preserves_try_catch; [done|intros; apply preserves_ret].
    - eapply (preserves_run (holds (provider st1))); [|done|exact H2].
      apply preserves_try_catch; [|intros; apply preserves_ret].
      apply preserves_getAccounts, holds_plumbing_free.
    - apply try_catch_resolved in H2 as [H2|(s & e & _ & H2)].
      + apply getAccounts_resolved_inv in H2 as (a & a' & _ & _ & -> & _). eauto.
      + unfold ret in H2. simplify_eq. by left. }
  apply try_catch_resolved in H as [H | (st3 & e & _ & H)]; cycle 1.
  { by repeat destruct (has_code _ _). }
  apply bind_resolved in H as (st3 & accounts' & H3 & H).
  assert (I st3 ∧ provider st3 = provider st1 ∧ ∃ a, accounts' = [a])
    as (HI3 & Hp3 & Hacc3).
  { destruct Hacc2 as [->|[a ->]]; cbn in H3.
    - destruct (signer_getAddress env _) as [a| |]; try done.
      unfold ret in H3. simplify_eq. split; [|split; eauto].
      by apply Hlog.
    - unfold ret in H3. simplify_eq. eauto. }
  apply bind_resolved in H as (st4 & [] & H4 & H).
  assert (I st4 ∧ is_Some (provider st4)) as [HI4 Hp4].
  { split; [exact (preserves_run I _ _ _ _ Hpost HI3 H4)|].
    eapply (preserves_run (λ s, is_Some (provider s)));
      [apply (by_post_connect _ _ (respected_cached (λ _, true)))| |exact H4].
    by rewrite Hp3. }
  apply bind_resolved in H as (st5 & cur & H5 & H).
  destruct Hp4 as [p4 Hp4].
  rewrite (getChainId_cached env st4 p4 Hp4) in H5.
  injection H5 as <- Hcur.
  assert (I (log CallSignerGetChainId st4)) as HI5 by by apply Hlog.
  apply bind_resolved in H as (st6 & cur' & H6 & H).
  apply bind_resolved in H as (st7 & [] & H7 & H).
  unfold ret in H. simplify_eq.
  apply storage_removeItem_resolved in H7 as (Hs7 & _ & Ht7).
  split; [done|]. cbn [result_accounts result_chainId].
  assert (storage st6 = storage st) as Hs6.
  { eapply (preserves_run (λ s, storage s = storage st));
      [|exact (proj1 HI5)|exact H6].
    destruct chainId as [requested|]; [|apply preserves_ret].
    destruct (_ && _); [|apply preserves_ret].
    apply preserves_bind; [|intros; apply preserves_ret].
    apply preserves_try_catch; [by apply preserves_switchChain|].
    intros e. destruct (has_code _ _); [apply preserves_throw|apply preserves_ret]. }
  split; [by rewrite Hs7, Hs6|].
  exists (length (trace st4)), cur. split; [done|].
  destruct chainId as [requested|]; cycle 1.
  { unfold ret in H6. simplify_eq.
    left. rewrite Ht7. destruct HI5 as [_ ->]. eauto. }
  destruct (negb (requested =? 0) && negb (cur =? requested)) eqn:Hcond; cycle 1.
  { unfold ret in H6. simplify_eq.
    left. rewrite Ht7. destruct HI5 as [_ ->]. split; [done|]. split; [|done].
    apply andb_false_iff in Hcond as [Hz|Hz]; apply negb_false_iff in Hz.
    - apply Z.eqb_eq in Hz as ->. auto.
    - apply Z.eqb_eq in Hz as ->. auto. }
  apply andb_true_iff in Hcond as [Hz Hne].
  apply negb_true_iff, Z.eqb_neq in Hz. apply negb_true_iff, Z.eqb_neq in Hne.
  apply bind_resolved in H6 as (st6' & chain & Hsw & H6).
  unfold ret in H6. simplify_eq.
  right. exists requested. repeat split; [done|congruence|].
  rewrite Ht7. destruct HI5 as [_ <-].
  pose proof (switchChain_requests env requested (log CallSignerGetChainId st4))
    as Hreq.
  apply try_catch_resolved in Hsw as [Hsw|(s & e & Hsw & Hh)].
  - left. apply switchChain_resolved_inv in Hsw as (Hin & Hid & _ & -> & _).
    split; [done|]. split; [rewrite <- Hid; by apply list_elem_of_fmap_2|].
    cbn. unfold rpc_requests. by rewrite filter_app.
  - right. rewrite Hsw in Hreq. cbn in Hreq.
    destruct (has_code e _); [done|]. unfold ret in Hh. by simplify_eq.
Qed.

(** X11: a resolved [connect] returns exactly one account, and it has
    removed the disconnection flag from the host storage, leaving every
    other key as it was. *)
Theorem connect_resolved_accounts_and_flag env chainId isReconnecting st st' res :
  connect env chainId isReconnecting st = (st', Resolved res) →
  (∃ a, result_accounts res = [a])
  ∧ storage st' = delete disconnected_key <$> storage st
  ∧ (∀ m, storage st' = Some m → m !! disconnected_key = None).
Proof.
  intros H. apply connect_resolved_inv in H as (Ha & Hs & _).
  repeat split; [done..|].
  intros m Hm. rewrite Hs in Hm. destruct (storage st) as [m0|]; [|done].
  cbn in Hm. simplify_eq. apply lookup_delete_eq.
Qed.

Lemma connect_resolved_accounts_and_flag_witness :
  (∃ a, ["0xa11ce"] = [a])
  ∧ storage (run demo_env (MConnect None false) disconnected)
    = delete disconnected_key <$> storage disconnected
  ∧ (∀ m, storage (run demo_env (MConnect None false) disconnected) = Some m →
          m !! disconnected_key = None).
Proof.
  apply (connect_resolved_accounts_and_flag demo_env None false disconnected
           (run demo_env (MConnect None false) disconnected)
           (mkConnectResult ["0xa11ce"] amoy)).
  vm_compute; reflexivity.
Defined.

(** X12: a resolved [connect] has sent a chain-switch request only if a
    non-zero chain id was requested that differs from the one the signer
    reported and is among [config.chains]; then it has sent exactly that
    one request. *)
Theorem connect_switches_only_when_asked env chainId isReconnecting st st' res :
  connect env chainId isReconnecting st = (st', Resolved res) →
  rpc_requests (trace st') ≠ rpc_requests (trace st) →
  ∃ requested n cur,
    chainId = Some requested ∧ requested ≠ 0
    ∧ signer_getChainId env n = Resolved cur ∧ requested ≠ cur
    ∧ requested ∈ chain_id <$> chains env
    ∧ rpc_requests (trace st')
      = rpc_requests (trace st)
        ++ [CallProviderSend "wallet_switchEthereumChain" requested].
Proof.
  intros H Hne.
  apply connect_resolved_inv in H as (_ & _ & n & cur & Hcur & Hcases).
  destruct Hcases as [(_ & _ & Hsame)|(requested & -> & Hz & Hd & Hsw)]; [done|].
  exists requested, n, cur.
  destruct Hsw as [(_ & Hin & Ht)|(_ & [Ht|[Ht Hin]])]; [eauto 10|done|eauto 10].
Qed.

Lemma connect_switches_only_when_asked_witness :
  ∃ requested n cur,
    Some 137 = Some requested ∧ requested ≠ 0
    ∧ signer_getChainId two_chain_env n = Resolved cur ∧ requested ≠ cur
    ∧ requested ∈ chain_id <$> chains two_chain_env
    ∧ rpc_requests (trace (run two_chain_env (MConnect (Some 137) false) fresh))
      = rpc_requests (trace fresh)
        ++ [CallProviderSend "wallet_switchEthereumChain" requested].
Proof.
  apply (connect_switches_only_when_asked two_chain_env (Some 137) false fresh
           (run two_chain_env (MConnect (Some 137) false) fresh)
           (mkConnectResult ["0xa11ce"] 137)).
  - vm_compute; reflexivity.
  - vm_compute. discriminate.
Defined.

(** X13: the chain id a resolved [connect] returns is one the signer
    reported, or else it is the requested chain id, which then is among
    [config.chains].  In particular a requested chain that is not configured
    yields the signer's chain id. *)
Theorem connect_result_chainId env chainId isReconnecting st st' res :
  connect env chainId isReconnecting st = (st', Resolved res) →
  (∃ n, signer_getChainId env n = Resolved (result_chainId res))
  ∨ (chainId = Some (result_chainId res)
     ∧ result_chainId res ∈ chain_id <$> chains env).
Proof.
  intros H.
  apply connect_resolved_inv in H as (_ & _ & n & cur & Hcur & Hcases).
  destruct Hcases as [(-> & _)|(requested & -> & _ & _ & Hsw)]; [eauto|].
  destruct Hsw as [(-> & Hin & _)|(-> & _)]; eauto.
Qed.

Lemma connect_result_chainId_witness :
  (∃ n, signer_getChainId demo_env n = Resolved amoy)
  ∨ (Some 137 = Some amoy ∧ amoy ∈ chain_id <$> chains demo_env).
Proof.
  apply (connect_result_chainId demo_env (Some 137) false fresh
           (run demo_env (MConnect (Some 137) false) fresh)
           (mkConnectResult ["0xa11ce"] amoy)).
  vm_compute; reflexivity.
Defined.

Lemma has_code_true e c : has_code e c = true → error_code e = Some c.
Proof.
  unfold has_code. destruct (error_code e); [|done]. by intros ->%Z.eqb_eq.
Qed.

Lemma has_code_false e c : has_code e c = false → error_code e ≠ Some c.
Proof.
  unfold has_code. destruct (error_code e); [|done].
  intros Hne%Z.eqb_neq. congruence.
Qed.

Lemma bind_rejected {A B} (m : Async A) (k : A → Async B) st e :
  (bind m k st).2 = Rejected e →
  (m st).2 = Rejected e
  ∨ ∃ st1 a, m st = (st1, Resolved a) ∧ (k a st1).2 = Rejected e.
Proof.
  unfold bind. destruct (m st) as [st1 [a|e0|]]; cbn; intros H.
  - right. exists st1, a. by split.
  - left. by simplify_eq.
  - discriminate H.
Qed.

Lemma try_catch_rejected {A} (m : Async A) h st e :
  (try_catch m h st).2 = Rejected e →
  ∃ st1 e0, m st = (st1, Rejected e0) ∧ (h e0 st1).2 = Rejected e.
Proof.
  unfold try_catch. destruct (m st) as [st1 [a|e0|]]; cbn; eauto; done.
Qed.

(** X14: with a provider cached, [connect] never rejects with a bare
    error of code 4001 or -32002: such an error arrives wrapped, as a
    [UserRejectedRequestError] or a [ResourceUnavailableRpcError] around
    the original; every other error is rethrown as it is. *)
Theorem connect_rejections env chainId isReconnecting st e' :
  is_Some (provider st) →
  (connect env chainId isReconnecting st).2 = Rejected e' →
  (∃ e, e' = UserRejectedRequestError e
        ∧ error_code e = Some UserRejectedRequestError_code)
  ∨ (∃ e, e' = ResourceUnavailableRpcError e
          ∧ error_code e = Some ResourceUnavailableRpcError_code)
  ∨ (error_code e' ≠ Some UserRejectedRequestError_code
     ∧ error_code e' ≠ Some ResourceUnavailableRpcError_code).
Proof.
  intros [p Hp] H. unfold connect in H.
  apply bind_rejected in H as [H|(st1 & [] & _ & H)].
  { by rewrite Hp in H. }
  apply bind_rejected in H as [H|(st2 & accounts & _ & H)].
  { destruct isReconnecting; [|done].
    apply try_catch_rejected in H as (? & ? & _ & H). done. }
  apply try_catch_rejected in H as (st3 & e & _ & H).
  destruct (has_code e UserRejectedRequestError_code) eqn:H1.
  { injection H as <-. left. eauto using has_code_true. }
  destruct (has_code e ResourceUnavailableRpcError_code) eqn:H3.
  { injection H as <-. right. left. eauto using has_code_true. }
  injection H as <-. right. right. eauto using has_code_false.
Qed.

Lemma connect_rejections_witness :
  (∃ e, (connect declining_env None false disconnected).2
        = Rejected (UserRejectedRequestError e)
        ∧ error_code e = Some UserRejectedRequestError_code)
  ∨ (∃ e, (connect declining_env None false disconnected).2
          = Rejected (ResourceUnavailableRpcError e)
          ∧ error_code e = Some ResourceUnavailableRpcError_code)
  ∨ False.
Proof.
  destruct (connect_rejections declining_env None false disconnected
              (UserRejectedRequestError
                 (ProviderError (Some UserRejectedRequestError_code))))
    as [(e & He & Hc)|[(e & He & _)|[Hn _]]].
  - vm_compute; eauto.
  - vm_compute; reflexivity.
  - left. exists e. split; [|exact Hc]. rewrite <- He. vm_compute; reflexivity.
  - discriminate He.
  - exfalso. apply Hn. reflexivity.
Defined.

(** X15: an error of the SDK while the provider is being constructed is
    outside the translation: [connect] rejects with that very error,
    whatever its code, nothing is cached and no listener is attached. *)
Theorem connect_sdk_failure_is_raw env chainId isReconnecting st a e :
  provider st = None →
  configured_appId env = Some a →
  sdk_ethereum env (length (trace st) + 2) = Rejected e →
  (connect env chainId isReconnecting st).2 = Rejected e
  ∧ provider (connect env chainId isReconnecting st).1 = None
  ∧ trace (connect env chainId isReconnecting st).1
    = trace st ++ [CallImportSdk; CallNewSdk a (user env); CallSdkEthereum].
Proof.
  intros Hp Ha He.
  assert (connect env chainId isReconnecting st
          = (log CallSdkEthereum
               (log (CallNewSdk a (user env)) (log CallImportSdk st)),
             Rejected e)) as ->.
  { unfold connect. unfold bind at 1. rewrite Hp.
    unfold construct_provider, bind, external, modify. cbn. rewrite Ha. cbn.
    rewrite !length_app. cbn.
    replace (length (trace st) + 1 + 1)%nat with (length (trace st) + 2)%nat by lia.
    by rewrite He. }
  cbn. repeat split; [done|]. by rewrite <- !app_assoc.
Qed.

Lemma connect_sdk_failure_is_raw_witness :
  (connect sdk_down_env None false fresh).2
    = Rejected (ProviderError (Some UserRejectedRequestError_code))
  ∧ provider (connect sdk_down_env None false fresh).1 = None
  ∧ trace (connect sdk_down_env None false fresh).1
    = trace fresh ++ [CallImportSdk; CallNewSdk "app-id" None; CallSdkEthereum].
Proof.
  apply (connect_sdk_failure_is_raw sdk_down_env None false fresh "app-id");
    reflexivity.
Defined.

(** ** Provider event handlers *)

(** The part of [onDisconnect] after the 1013 check. *)
Lemma onDisconnect_tail st :
  let r := (modify clear_cached ;; modify (emit EmitDisconnect) ;;
            attach_pre_connect) st in
  emitted r.1 = emitted st ++ [EmitDisconnect]
  ∧ localStorage r.1
    = (delete "MetaKeep_cached_chainId"
         <$> (delete "MetaKeep_cached_address" <$> localStorage st))
  ∧ storage r.1 = storage st
  ∧ r.2 = match provider st with
          | Some _ => Resolved tt
          | None => Rejected TypeError
          end.
Proof.
  unfold bind, modify. cbn beta iota zeta.
  set (s := emit EmitDisconnect (clear_cached st)).
  assert (emitted (attach_pre_connect s).1 = emitted s
          ∧ localStorage (attach_pre_connect s).1 = localStorage s
          ∧ storage (attach_pre_connect s).1 = storage s) as (He & Hl & Hs).
  { destruct (preserves_swaps_fields
                (λ x, emitted x = emitted s ∧ localStorage x = localStorage s
                      ∧ storage x = storage s)) as [_ Hpre]; [done..|].
    by apply Hpre. }
  assert ((attach_pre_connect s).2
          = match provider st with
            | Some _ => Resolved tt
            | None => Rejected TypeError
            end) as Ho.
  { destruct (provider st) as [p|] eqn:Hp.
    - destruct (attach_pre_connect_cached s p) as (s' & -> & _); done.
    - unfold attach_pre_connect, bind, removeListener. cbn. by rewrite Hp. }
  destruct (attach_pre_connect s) as [s' o]. cbn in *.
  by rewrite He, Hl, Hs, Ho.
Qed.

(** X16: unless it takes the 1013 path on a cached provider,
    [onDisconnect] emits exactly one disconnect event, removes the two
    cached keys from [localStorage] and leaves the host storage alone.  It
    does so before it touches the provider: without a provider it still
    emits, and then rejects. *)
Theorem onDisconnect_emits env error st :
  (∀ e, error = Some e → has_code e 1013 = true → provider st = None) →
  emitted (onDisconnect env error st).1 = emitted st ++ [EmitDisconnect]
  ∧ localStorage (onDisconnect env error st).1
    = (delete "MetaKeep_cached_chainId"
         <$> (delete "MetaKeep_cached_address" <$> localStorage st))
  ∧ storage (onDisconnect env error st).1 = storage st
  ∧ (onDisconnect env error st).2
    = match provider st with
      | Some _ => Resolved tt
      | None => Rejected TypeError
      end.
Proof.
  intros Herr.
  set (st0 := (getProvider st).1).
  assert (emitted st0 = emitted st ∧ localStorage st0 = localStorage st
          ∧ storage st0 = storage st ∧ provider st0 = provider st)
    as (He & Hl & Hs & Hp0).
  { apply (preserves_getProvider
             (λ x, emitted x = emitted st ∧ localStorage x = localStorage st
                   ∧ storage x = storage st ∧ provider x = provider st));
      [by split|done]. }
  assert (onDisconnect env error st
          = (modify clear_cached ;; modify (emit EmitDisconnect) ;;
             attach_pre_connect) st0) as ->.
  { unfold onDisconnect. unfold bind at 1. subst st0.
    destruct (provider st) as [p|] eqn:Hp.
    - rewrite (getProvider_cached st p Hp). unfold bind at 1.
      destruct error as [e|]; [|done].
      destruct (has_code e 1013) eqn:Hc; [|done].
      by specialize (Herr e eq_refl Hc).
    - rewrite getProvider_absent by done. unfold bind at 1. cbn [fst].
      destruct error as [e|]; [|done]. by destruct (has_code e 1013). }
  pose proof (onDisconnect_tail st0) as Ht. cbn zeta in Ht.
  by rewrite He, Hl, Hs, Hp0 in Ht.
Qed.

Lemma onDisconnect_emits_witness :
  emitted (onDisconnect demo_env None fresh).1 = [EmitDisconnect]
  ∧ (onDisconnect demo_env None fresh).2 = Rejected TypeError.
Proof.
  destruct (onDisconnect_emits demo_env None fresh) as (He & _ & _ & Ho);
    [intros e He; discriminate He|].
  split; [exact He | exact Ho].
Defined.

(** X17: when [onDisconnect] gets an error of code 1013 and the account
    query itself fails, that failure is what [onDisconnect] rejects with;
    nothing is emitted and nothing the connector owns changes. *)
Theorem onDisconnect_1013_query_fails env st e st1 e' :
  error_code e = Some 1013 →
  is_Some (provider st) →
  getAccounts env st = (st1, Rejected e') →
  (onDisconnect env (Some e) st).2 = Rejected e'
  ∧ effects (onDisconnect env (Some e) st).1 = effects st.
Proof.
  intros Hcode [p Hp] Hacc.
  assert (onDisconnect env (Some e) st = (st1, Rejected e')) as ->.
  { unfold onDisconnect. unfold bind at 1. rewrite (getProvider_cached st p Hp).
    unfold has_code. rewrite Hcode. cbn beta iota. rewrite Z.eqb_refl.
    unfold bind. by rewrite Hacc. }
  split; [done|]. cbn [fst].
  replace st1 with (getAccounts env st).1 by by rewrite Hacc.
  by apply (preserves_getAccounts _ env (effects_plumbing_free (effects st))).
Qed.

Lemma onDisconnect_1013_query_fails_witness :
  (onDisconnect signer_down_env (Some (ProviderError (Some 1013))) connected).2
    = Rejected (ProviderError None)
  ∧ effects (onDisconnect signer_down_env
               (Some (ProviderError (Some 1013))) connected).1
    = effects connected.
Proof.
  apply (onDisconnect_1013_query_fails signer_down_env connected
           (ProviderError (Some 1013))
           (getAccounts signer_down_env connected).1 (ProviderError None)).
  - reflexivity.
  - vm_compute; eauto.
  - vm_compute; reflexivity.
Defined.

Lemma onConnect_emits_after_accounts_inv env c st :
  (∀ st1 e, getAccounts env st = (st1, Rejected e) →
            (onConnect env c st).2 = Rejected e
            ∧ effects (onConnect env c st).1 = effects st)
  ∧ (∀ st1 accounts, getAccounts env st = (st1, Resolved accounts) →
            (onConnect env c st).2 = Resolved tt
            ∧ emitted (onConnect env c st).1
              = emitted st ++ [EmitConnect accounts (NumberOf c)]
            ∧ storage (onConnect env c st).1 = storage st
            ∧ ∃ p', provider (onConnect env c st).1 = Some p'
                    ∧ listening p' EvAccountsChanged = true
                    ∧ listening p' EvChainChanged = true
                    ∧ listening p' EvDisconnect = true).
Proof.
  split.
  - intros st1 e Hacc.
    assert (onConnect env c st = (st1, Rejected e)) as ->.
    { unfold onConnect, bind. by rewrite Hacc. }
    split; [done|]. cbn [fst].
    replace st1 with (getAccounts env st).1 by by rewrite Hacc.
    by apply (preserves_getAccounts _ env (effects_plumbing_free (effects st))).
  - intros st1 accounts Hacc.
    destruct (getAccounts_resolved_inv env st st1 accounts Hacc)
      as (a & a' & _ & _ & -> & [p Hp] & ->).
    set (s := emit (EmitConnect [a'] (NumberOf c)) (log CallSignerGetAddress st)).
    assert (provider s = Some p) as Hps by done.
    destruct (attach_post_connect_cached s p Hps) as (s' & Hrun & Hp').
    assert (onConnect env c st = (s', Resolved tt)) as ->.
    { unfold onConnect. unfold bind at 1. rewrite Hacc. cbn [length Nat.eqb].
      unfold bind at 1. unfold modify. fold s.
      unfold bind. by rewrite (getProvider_cached s p Hps). }
    cbn [fst snd]. split; [done|].
    assert (emitted s' = emitted s ∧ storage s' = storage s) as [-> ->].
    { destruct (preserves_swaps_fields
                  (λ x, emitted x = emitted s ∧ storage x = storage s))
        as [Hpost _]; [done..|].
      exact (preserves_run _ _ _ _ _ Hpost (conj eq_refl eq_refl) Hrun). }
    repeat split. eexists. split; [exact Hp'|].
    repeat split; unfold listening; cbn [events]; rewrite existsb_app; cbn;
      by rewrite ?orb_true_r.
Qed.

(** X18: [onConnect] emits nothing unless the account query succeeds.
    When it fails, [onConnect] rejects with the same error and changes
    nothing; when it succeeds, [onConnect] resolves, emits one connect
    event with those accounts and the chain id of [connectInfo], leaves the
    host storage alone, and leaves listeners attached for accountsChanged,
    chainChanged and disconnect. *)
Theorem onConnect_emits_after_accounts env c st :
  (∀ st1 e, getAccounts env st = (st1, Rejected e) →
            (onConnect env c st).2 = Rejected e
            ∧ effects (onConnect env c st).1 = effects st)
  ∧ (∀ st1 accounts, getAccounts env st = (st1, Resolved accounts) →
            (onConnect env c st).2 = Resolved tt
            ∧ emitted (onConnect env c st).1
              = emitted st ++ [EmitConnect accounts (NumberOf c)]
            ∧ storage (onConnect env c st).1 = storage st
            ∧ ∃ p', provider (onConnect env c st).1 = Some p'
                    ∧ listening p' EvAccountsChanged = true
                    ∧ listening p' EvChainChanged = true
                    ∧ listening p' EvDisconnect = true).
Proof. apply onConnect_emits_after_accounts_inv. Qed.

Lemma onConnect_emits_after_accounts_witness :
  ((onConnect signer_down_env "80002" connected).2 = Rejected (ProviderError None)
   ∧ effects (onConnect signer_down_env "80002" connected).1 = effects connected)
  ∧ (onConnect demo_env "80002" connected).2 = Resolved tt
  ∧ emitted (onConnect demo_env "80002" connected).1
    = emitted connected ++ [EmitConnect ["0xa11ce"] (NumberOf "80002")].
Proof.
  split.
  - destruct (onConnect_emits_after_accounts signer_down_env "80002" connected)
      as [Hfail _].
    apply (Hfail (getAccounts signer_down_env connected).1 (ProviderError None)).
    vm_compute; reflexivity.
  - destruct (onConnect_emits_after_accounts demo_env "80002" connected)
      as [_ Hok].
    destruct (Hok (getAccounts demo_env connected).1 ["0xa11ce"])
      as (H1 & H2 & _); [vm_compute; reflexivity|].
    split; [exact H1 | exact H2].
Defined.

Lemma map_getAddress_mapM env xs st :
  map_getAddress env xs st =
  (st, match mapM (viem_getAddress env) xs with
       | Some cs => Resolved cs
       | None => Rejected InvalidAddressError
       end).
Proof.
  induction xs as [|x xs IH]; cbn; [done|].
  destruct (viem_getAddress env x) as [a|]; cbn; [|done].
  unfold bind. rewrite IH. by destruct (mapM _ xs).
Qed.

(** X19: with no subscriber to the host's connect event, a non-empty
    [onAccountsChanged] is all or nothing: if every address passes
    [getAddress] it emits one change event with the checksummed list, as
    long as the input, and does nothing else; if one does not, it rejects
    and the state is untouched. *)
Theorem onAccountsChanged_change env accounts st :
  accounts ≠ [] →
  connectSubscribers st = 0%nat →
  (∀ cs, mapM (viem_getAddress env) accounts = Some cs →
         onAccountsChanged env accounts st
           = (emit (EmitChangeAccounts cs) st, Resolved tt)
         ∧ length cs = length accounts)
  ∧ (mapM (viem_getAddress env) accounts = None →
         onAccountsChanged env accounts st = (st, Rejected InvalidAddressError)).
Proof.
  intros Hne Hsub.
  assert (onAccountsChanged env accounts st
          = (let* checksummed := map_getAddress env accounts in
             modify (emit (EmitChangeAccounts checksummed))) st) as ->.
  { unfold onAccountsChanged. rewrite Hsub. by destruct accounts. }
  unfold bind. rewrite map_getAddress_mapM. split.
  - intros cs Hcs. rewrite Hcs. split; [done|].
    symmetry. by eapply length_mapM.
  - by intros ->.
Qed.

Lemma onAccountsChanged_change_witness :
  onAccountsChanged demo_env ["0xb0b"; "0xa11ce"] connected
  = (emit (EmitChangeAccounts ["0xb0b"; "0xa11ce"]) connected, Resolved tt)
  ∧ length ["0xb0b"; "0xa11ce"] = length ["0xb0b"; "0xa11ce"].
Proof.
  destruct (onAccountsChanged_change demo_env ["0xb0b"; "0xa11ce"] connected)
    as [Hok _]; [discriminate | reflexivity |].
  apply Hok. reflexivity.
Defined.



(** ** Setup, and the flag between disconnect and the next probe *)

(** X21: [setup] always resolves.  On a connector without provider, which
    is every new connector, it attaches no listener and changes nothing the
    connector owns; with a provider cached it appends one connect
    listener. *)
Theorem setup_resolves st :
  (setup st).2 = Resolved tt
  ∧ emitted (setup st).1 = emitted st
  ∧ storage (setup st).1 = storage st
  ∧ provider (setup st).1
    = match provider st with
      | None => None
      | Some p =>
          Some (mkProvider (events p ++ [(EvConnect, BoundOnConnect (nextBound st))]))
      end.
Proof.
  unfold setup, bind. destruct (provider st) as [p|] eqn:Hp.
  - rewrite (getProvider_cached st p Hp).
    by rewrite (on_bound_cached EvConnect BoundOnConnect st p Hp).
  - rewrite getProvider_absent by done. by destruct (providerPromise st).
Qed.

Lemma attach_pre_connect_absent st :
  provider st = None → attach_pre_connect st = (st, Rejected TypeError).
Proof.
  intros Hp. unfold attach_pre_connect, bind, removeListener. by rewrite Hp.
Qed.

Lemma disconnect_resolved_inv env st st1 u :
  disconnect env st = (st1, Resolved u) →
  is_Some (provider st)
  ∧ storage st1 = (<[disconnected_key := true]> <$> storage st)
  ∧ emitted st1 = emitted st
  ∧ ∃ p1, provider st1 = Some p1 ∧ listening p1 EvConnect = true.
Proof.
  intros H. unfold disconnect in H.
  destruct (provider st) as [p|] eqn:Hp; cycle 1.
  { unfold bind at 1 in H. rewrite getProvider_absent in H by done.
    unfold bind at 1 in H. rewrite attach_pre_connect_absent in H; [done|].
    by destruct (providerPromise st). }
  split; [done|].
  unfold bind at 1 in H. rewrite (getProvider_cached st p Hp) in H.
  destruct (attach_pre_connect_cached st p Hp) as (st2 & Hrun & _ & Hsto & Hp2).
  assert (emitted st2 = emitted st) as Hem.
  { destruct (preserves_swaps_fields (λ x, emitted x = emitted st))
      as [_ Hpre]; [done..|].
    exact (preserves_run _ _ _ _ _ Hpre eq_refl Hrun). }
  unfold bind at 1 in H. rewrite Hrun in H.
  assert (listening
            (mkProvider
               (remove_first EvDisconnect (BoundOnDisconnect (S (nextBound st)))
                  (remove_first EvChainChanged OnChainChanged
                     (remove_first EvAccountsChanged
                        (BoundOnAccountsChanged (nextBound st)) (events p)))
                ++ [(EvConnect, BoundOnConnect (S (S (nextBound st))))]))
            EvConnect = true) as Hl.
  { unfold listening. cbn [events]. rewrite existsb_app. cbn.
    by rewrite orb_true_r. }
  unfold storage_setItem in H. rewrite Hsto in H.
  destruct (storage st) as [m|] eqn:Hm.
  - unfold bind, external, modify in H.
    destruct (storage_backend env _); simplify_eq. cbn.
    repeat split; [done|]. eauto.
  - simplify_eq. rewrite Hsto. repeat split; [done|]. eauto.
Qed.

(** X22: when [disconnect] resolves, a provider was cached and is still
    cached, now with a connect listener; the flag is stored as true in the
    host storage, if there is one, with every other key as before; and
    nothing was emitted to the host. *)
Theorem disconnect_resolved env st st1 u :
  disconnect env st = (st1, Resolved u) →
  is_Some (provider st)
  ∧ storage st1 = (<[disconnected_key := true]> <$> storage st)
  ∧ emitted st1 = emitted st
  ∧ ∃ p1, provider st1 = Some p1 ∧ listening p1 EvConnect = true.
Proof. apply disconnect_resolved_inv. Qed.

Lemma disconnect_resolved_witness :
  is_Some (provider connected)
  ∧ storage disconnected = (<[disconnected_key := true]> <$> storage connected)
  ∧ emitted disconnected = emitted connected
  ∧ ∃ p1, provider disconnected = Some p1 ∧ listening p1 EvConnect = true.
Proof.
  apply (disconnect_resolved demo_env connected disconnected tt).
  vm_compute; reflexivity.
Defined.

(** X23: after a [disconnect] that resolved on a host with a storage, the
    next [isAuthorized] answers false as soon as the storage read settles,
    whatever the wallet would say about accounts. *)
Theorem isAuthorized_after_disconnect env st st1 u :
  disconnect env st = (st1, Resolved u) →
  is_Some (storage st) →
  storage_backend env (length (trace st1)) ≠ Pending →
  (isAuthorized env st1).2 = Resolved false.
Proof.
  intros H [m Hm] Hback.
  apply disconnect_resolved_inv in H as (_ & Hs & _). rewrite Hm in Hs. cbn in Hs.
  rewrite isAuthorized_unfold, (storage_getItem_present env _ st1 _ Hs).
  destruct (storage_backend env _) as [[]|e|]; try done.
  by rewrite lookup_insert_eq.
Qed.

Lemma isAuthorized_after_disconnect_witness :
  (isAuthorized demo_env disconnected).2 = Resolved false.
Proof.
  apply (isAuthorized_after_disconnect demo_env connected disconnected tt).
  - vm_compute; reflexivity.
  - vm_compute; eauto.
  - discriminate.
Defined.

(** ** The demo application *)

(** X24: when App.tsx gets past its check of the two environment values,
    the application id it creates the connector with is a non-empty
    string, so the first [connect] passes the configuration check and
    constructs the SDK client with exactly that id. *)
Theorem App_connect_reaches_sdk project_id app_id parameters env chainId isReconnecting st :
  App_parameters project_id app_id = Resolved parameters →
  appId env = parameters →
  provider st = None →
  ∃ a suffix,
    app_id = Some a ∧ a ≠ ""
    ∧ trace (connect env chainId isReconnecting st).1
      = trace st ++ [CallImportSdk; CallNewSdk a (user env); CallSdkEthereum]
                 ++ suffix.
Proof.
  unfold App_parameters. intros Happ Hid Hp.
  destruct (falsy project_id || falsy app_id) eqn:Hf; [done|].
  injection Happ as <-. apply orb_false_iff in Hf as [_ Hf].
  destruct app_id as [a|]; [|done]. exists a.
  assert (a ≠ "") as Hne by (by intros ->).
  assert (configured_appId env = Some a) as Hc.
  { unfold configured_appId. rewrite Hid. by destruct a. }
  pose (st1 := log CallSdkEthereum
                 (log (CallNewSdk a (user env)) (log CallImportSdk st))).
  set (I := λ s, ∃ suffix, trace s = trace st1 ++ suffix).
  assert (respected (λ _, true) I) as HI.
  { apply (respected_trace _ (λ t, ∃ suffix, t = trace st1 ++ suffix)).
    intros c t _ [suf ->]. exists (suf ++ [c]). by rewrite app_assoc. }
  assert (I (connect env chainId isReconnecting st).1) as [suffix Hs].
  { unfold connect. unfold bind at 1. rewrite Hp.
    unfold construct_provider, bind at 1. unfold external at 1. cbn beta iota.
    rewrite Hc. unfold bind at 1, modify at 1. unfold bind at 1.
    unfold external at 1.
    destruct (sdk_ethereum env _); cbn beta iota;
      [|by exists []; rewrite app_nil_r..].
    unfold bind at 1, modify at 1.
    apply (respected_connect_body (λ _, true) I HI); try done.
    exists []. by rewrite app_nil_r. }
  exists suffix. repeat split; [done|].
  rewrite Hs. subst st1. cbn. by rewrite <- !app_assoc.
Qed.

Lemma App_connect_reaches_sdk_witness :
  ∃ a suffix,
    Some "app-id" = Some a ∧ a ≠ ""
    ∧ trace (connect demo_env None false fresh).1
      = trace fresh ++ [CallImportSdk; CallNewSdk a (user demo_env); CallSdkEthereum]
                    ++ suffix.
Proof.
  apply (App_connect_reaches_sdk (Some "project-id") (Some "app-id")
           (Some "app-id") demo_env None false fresh); reflexivity.
Defined.
